(** * The crates plugin: publishing a Rust crate through [cargo publish]

    A shallow embedding of [plugin.go].  Go strings are byte sequences and
    are modelled by [string] (a sequence of 8-bit [ascii] characters);
    [map[string]any] is a [gmap string any].  The command executor is the
    collaborator that the code has injected; the configuration parser of the
    plugin SDK, the URL parser and the name resolver are the services that it
    calls: the four are taken as interfaces, so that the theorems hold for
    every implementation of them.  The other functions of the Go standard
    library that the plugin calls ([strings], [path/filepath] on a Unix
    target, [regexp], the address predicates of [net]) are modelled after the
    library's algorithms. *)

From Stdlib Require Import ZArith String Ascii Strings.Byte List DecimalString Bool Lia.
From stdpp Require Import base gmap strings list.

Local Open Scope Z_scope.

(** ** Package [strings] *)

Module strings.

(** [strings.HasPrefix s prefix]. *)
Definition HasPrefix (s prefix : string) : bool := String.prefix prefix s.

(** [strings.Contains s substr]: some suffix of [s] starts with [substr]. *)
Fixpoint Contains (s substr : string) : bool :=
  HasPrefix s substr ||
  match s with
  | EmptyString => false
  | String _ s' => Contains s' substr
  end.

(** [strings.TrimPrefix s prefix]: [s[len(prefix):]] when [s] starts with
    [prefix], and [s] itself otherwise. *)
Definition TrimPrefix (s prefix : string) : string :=
  if HasPrefix s prefix
  then String.substring (String.length prefix)
         (String.length s - String.length prefix) s
  else s.

(** [strings.Join elems sep]. *)
Definition Join (elems : list string) (sep : string) : string :=
  String.concat sep elems.

(** [strings.ToLower] on the ASCII letters. *)
Definition lower_byte (c : ascii) : ascii :=
  let n := nat_of_ascii c in
  if (65 <=? n)%nat && (n <=? 90)%nat then ascii_of_nat (n + 32) else c.

Fixpoint ToLower (s : string) : string :=
  match s with
  | EmptyString => EmptyString
  | String c s' => String (lower_byte c) (ToLower s')
  end.

End strings.

(** ** Package [path/filepath] (Unix: the separator is the slash, there is
    no volume name) *)

Module filepath.

Definition Separator : ascii := "/"%char.

Definition IsPathSeparator (c : ascii) : bool := Ascii.eqb c Separator.

Definition is_dot (c : ascii) : bool := Ascii.eqb c "."%char.

(** [filepath.IsAbs]. *)
Definition IsAbs (path : string) : bool := strings.HasPrefix path "/".

(** The byte at index [i] of the output buffer. *)
Definition index (buf : list ascii) (i : nat) : ascii := nth i buf Separator.

(** The inner loop of the [..] case of [Clean]:
    [for out.w > dotdot && !IsPathSeparator(out.index(out.w)) { out.w-- }]. *)
Fixpoint backtrack (buf : list ascii) (dotdot w : nat) : nat :=
  match w with
  | O => O
  | S w' =>
      if (dotdot <? w)%nat && negb (IsPathSeparator (index buf w))
      then backtrack buf dotdot w'
      else w
  end.

(** The bytes of the next path element, and what follows it:
    [for ; r < n && !IsPathSeparator(path[r]); r++ { out.append(path[r]) }]. *)
Fixpoint element (rest : list ascii) : list ascii * list ascii :=
  match rest with
  | [] => ([], [])
  | c :: rest' =>
      if IsPathSeparator c then ([], rest)
      else let '(e, r) := element rest' in (c :: e, r)
  end.

(** Is the byte at offset [0] of [rest] absent ([r == n]) or a separator? *)
Definition at_end_or_sep (rest : list ascii) : bool :=
  match rest with
  | [] => true
  | c :: _ => IsPathSeparator c
  end.

(** The main loop of [Clean].  [rest] is [path[r:]], [out] the bytes
    written so far ([out.w] is its length) and [dotdot] the index where a
    [..] must stop.  Every turn consumes at least one byte of [rest], which
    the fuel counts. *)
Fixpoint clean_loop (fuel : nat) (rooted : bool) (rest out : list ascii)
    (dotdot : nat) : option (list ascii) :=
  match rest with
  | [] => Some out
  | c :: rest1 =>
      match fuel with
      | O => None
      | S fuel' =>
          if IsPathSeparator c then
            (* empty path element *)
            clean_loop fuel' rooted rest1 out dotdot
          else if is_dot c && at_end_or_sep rest1 then
            (* . element *)
            clean_loop fuel' rooted rest1 out dotdot
          else if is_dot c && is_dot (hd Separator rest1)
                  && at_end_or_sep (tl rest1) then
            (* .. element: remove to last separator *)
            let rest2 := tl rest1 in
            if (dotdot <? length out)%nat then
              (* can backtrack *)
              let w := backtrack out dotdot (length out - 1) in
              clean_loop fuel' rooted rest2 (take w out) dotdot
            else if negb rooted then
              (* cannot backtrack, but not rooted, so append .. element *)
              let out1 := if (0 <? length out)%nat then out ++ [Separator] else out in
              let out2 := out1 ++ ["."%char; "."%char] in
              clean_loop fuel' rooted rest2 out2 (length out2)
            else
              clean_loop fuel' rooted rest2 out dotdot
          else
            (* real path element: add slash if needed, copy element *)
            let out1 :=
              if (rooted && negb (length out =? 1)%nat)
                 || (negb rooted && negb (length out =? 0)%nat)
              then out ++ [Separator] else out in
            let '(e, rest') := element rest in
            clean_loop fuel' rooted rest' (out1 ++ e) dotdot
      end
  end.

(** [Clean] on the bytes of the path. *)
Definition clean_bytes (path : list ascii) : list ascii :=
  match path with
  | [] => ["."%char]
  | c :: _ =>
      let rooted := IsPathSeparator c in
      let out0 := if rooted then [Separator] else [] in
      let rest0 := if rooted then tl path else path in
      let dotdot0 := if rooted then 1%nat else 0%nat in
      match clean_loop (length path) rooted rest0 out0 dotdot0 with
      | Some [] => ["."%char]          (* turn empty string into "." *)
      | Some out => out
      | None => ["."%char]             (* not reached: see [clean_loop_total] *)
      end
  end.

(** [filepath.Clean]. *)
Definition Clean (path : string) : string :=
  string_of_list_ascii (clean_bytes (list_ascii_of_string path)).

(** [path[:i+1]] where [i] is the index of the last separator of [path]
    ([-1] when there is none): the loop
    [for i >= 0 && !IsPathSeparator(path[i]) { i-- }] of [Dir]. *)
Fixpoint dir_prefix (path : list ascii) : list ascii :=
  match path with
  | [] => []
  | c :: path' =>
      match dir_prefix path' with
      | [] => if IsPathSeparator c then [c] else []
      | d => c :: d
      end
  end.

(** [filepath.Dir]. *)
Definition Dir (path : string) : string :=
  string_of_list_ascii (clean_bytes (dir_prefix (list_ascii_of_string path))).

End filepath.

(** ** Package [net]: addresses and networks *)

Module net.

(** [net.IP] is a byte slice: 4 bytes for the short form of an IPv4
    address, 16 bytes for an IPv6 address or the long form of an IPv4
    address. *)
Definition IP : Type := list Byte.byte.

(** [net.IPNet]. *)
Record IPNet : Type := mkIPNet { net_IP : IP; Mask : list Byte.byte }.

Definition IPv4len : nat := 4.
Definition IPv6len : nat := 16.

(** [x & y] on bytes. *)
Definition band (x y : Byte.byte) : Byte.byte :=
  default x00 (Byte.of_N (N.land (Byte.to_N x) (Byte.to_N y))).

Definition byte_at (ip : list Byte.byte) (i : nat) : Byte.byte := nth i ip x00.

Definition bytes_eqb (x y : list Byte.byte) : bool :=
  (length x =? length y)%nat && forallb (fun p => Byte.eqb (fst p) (snd p)) (combine x y).

(** [ip.To4()]: the 4-byte form of an IPv4 address, [None] for [nil]. *)
Definition To4 (ip : IP) : option IP :=
  if (length ip =? IPv4len)%nat then Some ip
  else if (length ip =? IPv6len)%nat
          && forallb (Byte.eqb x00) (take 10 ip)
          && Byte.eqb (byte_at ip 10) xff
          && Byte.eqb (byte_at ip 11) xff
  then Some (drop 12 ip)
  else None.

(** [net.CIDRMask ones bits], for [bits] a multiple of eight. *)
Fixpoint mask_bytes (l ones : nat) : list Byte.byte :=
  match l with
  | O => []
  | S l' =>
      if (8 <=? ones)%nat then xff :: mask_bytes l' (ones - 8)
      else default x00
             (Byte.of_N (N.lxor 255 (N.shiftr 255 (N.of_nat ones))))
           :: mask_bytes l' 0
  end.

Definition CIDRMask (ones bits : nat) : list Byte.byte := mask_bytes (bits / 8) ones.

(** [ip.Mask(mask)] for an address and a mask of the same length. *)
Definition mask_ip (ip : IP) (m : list Byte.byte) : IP :=
  map (fun p => band (fst p) (snd p)) (combine ip m).

(** The network that [net.ParseCIDR] returns for the literal that denotes
    the address [addr] (4 bytes for a dotted IPv4 literal, 16 bytes for an
    IPv6 literal) and the prefix length [ones]. *)
Definition ParseCIDR (addr : IP) (ones : nat) : IPNet :=
  let m := CIDRMask ones (8 * length addr) in
  mkIPNet (mask_ip addr m) m.

(** [networkNumberAndMask]. *)
Definition networkNumberAndMask (n : IPNet) : option (IP * list Byte.byte) :=
  let ip := match To4 (net_IP n) with Some x => Some x | None =>
              if (length (net_IP n) =? IPv6len)%nat then Some (net_IP n) else None
            end in
  match ip with
  | None => None
  | Some ip =>
      if (length (Mask n) =? IPv4len)%nat then
        if (length ip =? IPv4len)%nat then Some (ip, Mask n) else None
      else if (length (Mask n) =? IPv6len)%nat then
        if (length ip =? IPv4len)%nat then Some (ip, drop 12 (Mask n))
        else Some (ip, Mask n)
      else None
  end.

(** The comparison loop of [Contains]. *)
Fixpoint same_network (nn m ip : list Byte.byte) : bool :=
  match nn, m, ip with
  | n0 :: nn', m0 :: m', i0 :: ip' =>
      if negb (Byte.eqb (band n0 m0) (band i0 m0)) then false
      else same_network nn' m' ip'
  | _, _, _ => true
  end.

(** The method [Contains] of [IPNet]. *)
Definition Contains (n : IPNet) (ip : IP) : bool :=
  match networkNumberAndMask n with
  | None => negb (0 <? length (default ip (To4 ip)))%nat
  | Some (nn, m) =>
      let ip := default ip (To4 ip) in
      if negb (length ip =? length nn)%nat then false
      else same_network nn m ip
  end.

Definition IPv6loopback : IP :=
  [x00; x00; x00; x00; x00; x00; x00; x00;
   x00; x00; x00; x00; x00; x00; x00; x01].

Definition v4InV6Prefix : list Byte.byte :=
  [x00; x00; x00; x00; x00; x00; x00; x00;
   x00; x00; xff; xff].

(** [ip.Equal(x)]. *)
Definition Equal (ip x : IP) : bool :=
  if (length ip =? length x)%nat then bytes_eqb ip x
  else if (length ip =? IPv4len)%nat && (length x =? IPv6len)%nat then
    bytes_eqb (take 12 x) v4InV6Prefix && bytes_eqb ip (drop 12 x)
  else if (length ip =? IPv6len)%nat && (length x =? IPv4len)%nat then
    bytes_eqb (take 12 ip) v4InV6Prefix && bytes_eqb (drop 12 ip) x
  else false.

Definition IsLoopback (ip : IP) : bool :=
  match To4 ip with
  | Some ip4 => Byte.eqb (byte_at ip4 0) x7f
  | None => Equal ip IPv6loopback
  end.

Definition IsLinkLocalUnicast (ip : IP) : bool :=
  match To4 ip with
  | Some ip4 => Byte.eqb (byte_at ip4 0) xa9 && Byte.eqb (byte_at ip4 1) xfe
  | None =>
      (length ip =? IPv6len)%nat && Byte.eqb (byte_at ip 0) xfe
      && Byte.eqb (band (byte_at ip 1) xc0) x80
  end.

Definition IsLinkLocalMulticast (ip : IP) : bool :=
  match To4 ip with
  | Some ip4 =>
      Byte.eqb (byte_at ip4 0) xe0 && Byte.eqb (byte_at ip4 1) x00
      && Byte.eqb (byte_at ip4 2) x00
  | None =>
      (length ip =? IPv6len)%nat && Byte.eqb (byte_at ip 0) xff
      && Byte.eqb (band (byte_at ip 1) x0f) x02
  end.

Definition IsPrivate (ip : IP) : bool :=
  match To4 ip with
  | Some ip4 =>
      Byte.eqb (byte_at ip4 0) x0a
      || (Byte.eqb (byte_at ip4 0) xac
          && Byte.eqb (band (byte_at ip4 1) xf0) x10)
      || (Byte.eqb (byte_at ip4 0) xc0 && Byte.eqb (byte_at ip4 1) xa8)
  | None =>
      (length ip =? IPv6len)%nat
      && Byte.eqb (band (byte_at ip 0) xfe) xfc
  end.

End net.

(** ** Errors and results *)

(** Go's [error]: [None] is [nil], [Some msg] an error whose text is [msg]. *)
Definition error : Type := option string.

(** A Go result [(value, error)]. *)
Inductive result (A : Type) : Type :=
  | Ok (a : A)
  | Err (msg : string).
Arguments Ok {A} a.
Arguments Err {A} msg.

(** ** Package [net/url] *)

Module url.

(** The fields of [url.URL] that the plugin reads. *)
Record URL : Type := mkURL { Scheme : string; Host : string }.

Definition is_digit (c : ascii) : bool :=
  let n := nat_of_ascii c in (48 <=? n)%nat && (n <=? 57)%nat.

Fixpoint all_digits (s : string) : bool :=
  match s with
  | EmptyString => true
  | String c s' => is_digit c && all_digits s'
  end.

(** [validOptionalPort]: empty, or a colon followed by digits. *)
Definition validOptionalPort (port : string) : bool :=
  match port with
  | EmptyString => true
  | String c port' => Ascii.eqb c ":" && all_digits port'
  end.

(** [(s[:i], s[i:])] for [i] the last index of the byte [c] in [s]. *)
Fixpoint cut_last (c : ascii) (s : string) : option (string * string) :=
  match s with
  | EmptyString => None
  | String a s' =>
      match cut_last c s' with
      | Some (pre, suf) => Some (String a pre, suf)
      | None => if Ascii.eqb a c then Some (EmptyString, s) else None
      end
  end.

(** [host[:len(host)-1]] when [host] ends with a closing bracket. *)
Fixpoint strip_closing_bracket (s : string) : option string :=
  match s with
  | EmptyString => None
  | String c EmptyString => if Ascii.eqb c "]" then Some EmptyString else None
  | String c s' => String c <$> strip_closing_bracket s'
  end.

(** [splitHostPort], the host part. *)
Definition splitHostPort (hostPort : string) : string :=
  let host :=
    match cut_last ":" hostPort with
    | Some (pre, suf) => if validOptionalPort suf then pre else hostPort
    | None => hostPort
    end in
  match host with
  | String c host' =>
      if Ascii.eqb c "[" then default host (strip_closing_bracket host') else host
  | EmptyString => host
  end.

(** [u.Hostname()]. *)
Definition Hostname (u : URL) : string := splitHostPort (Host u).

(** *** The splitting steps of [url.Parse]

    [Parse] below follows the standard library in how it cuts a raw URL
    into scheme, authority and rest, and in the errors of these steps.
    What the library does to each part afterwards (decoding percent
    escapes, refusing bytes that are illegal in a host or in the user
    information) is left out; those steps leave the scheme alone and only
    touch a host that has a percent sign or an illegal byte.  The error
    text is the cause, without the wrapper of [url.Error]. *)

(** [stringContainsCTLByte]. *)
Fixpoint stringContainsCTLByte (s : string) : bool :=
  match s with
  | EmptyString => false
  | String c s' =>
      (nat_of_ascii c <? 32)%nat || (nat_of_ascii c =? 127)%nat
      || stringContainsCTLByte s'
  end.

(** [strings.Cut s sep] for a one-byte separator: the text before the
    first [sep], and the text after it when [sep] occurs. *)
Fixpoint Cut (s : string) (sep : ascii) : string * option string :=
  match s with
  | EmptyString => (EmptyString, None)
  | String c s' =>
      if Ascii.eqb c sep then (EmptyString, Some s')
      else let '(before, after) := Cut s' sep in (String c before, after)
  end.

Definition is_letter (c : ascii) : bool :=
  let n := nat_of_ascii c in
  ((97 <=? n)%nat && (n <=? 122)%nat) || ((65 <=? n)%nat && (n <=? 90)%nat).

(** The loop of [getScheme]: [i] is the index of the first byte of
    [rest] in [rawURL]. *)
Fixpoint getScheme_loop (rawURL : string) (i : nat) (rest : string)
    : result (string * string) :=
  match rest with
  | EmptyString => Ok (EmptyString, rawURL)
  | String c rest' =>
      if is_letter c then getScheme_loop rawURL (S i) rest'
      else if is_digit c || Ascii.eqb c "+" || Ascii.eqb c "-" || Ascii.eqb c "." then
        if (i =? 0)%nat then Ok (EmptyString, rawURL)
        else getScheme_loop rawURL (S i) rest'
      else if Ascii.eqb c ":" then
        if (i =? 0)%nat then Err "missing protocol scheme"
        else Ok (String.substring 0 i rawURL, rest')
      else Ok (EmptyString, rawURL)
  end.

Definition getScheme (rawURL : string) : result (string * string) :=
  getScheme_loop rawURL 0 rawURL.

(** [parseHost], the checks on brackets and port. *)
Definition parseHost (host : string) : result string :=
  if strings.HasPrefix host "[" then
    match cut_last "]" host with
    | None => Err "missing ']' in host"
    | Some (_, String _ colonPort) =>
        if validOptionalPort colonPort then Ok host
        else Err "invalid port after host"
    | Some (_, EmptyString) => Ok host
    end
  else
    match cut_last ":" host with
    | Some (_, colonPort) =>
        if validOptionalPort colonPort then Ok host
        else Err "invalid port after host"
    | None => Ok host
    end.

(** [parseAuthority], the host: what follows the last [@]. *)
Definition parseAuthority (authority : string) : result string :=
  match cut_last "@" authority with
  | None => parseHost authority
  | Some (_, String _ host) => parseHost host
  | Some (_, EmptyString) => parseHost authority
  end.

(** [parse(rawURL, false)]. *)
Definition parse (rawURL : string) : result URL :=
  if stringContainsCTLByte rawURL
  then Err "net/url: invalid control character in URL"
  else if String.eqb rawURL "*" then Ok (mkURL "" "")
  else
    match getScheme rawURL with
    | Err e => Err e
    | Ok (scheme, rest) =>
        let scheme := strings.ToLower scheme in
        let rest := fst (Cut rest "?") in
        let has_scheme := negb (String.eqb scheme "") in
        if negb (strings.HasPrefix rest "/") && has_scheme
        then Ok (mkURL scheme "")     (* a rootless path is opaque *)
        else if negb (strings.HasPrefix rest "/")
                && strings.Contains (fst (Cut rest "/")) ":"
        then Err "first path segment in URL cannot contain colon"
        else if (has_scheme || negb (strings.HasPrefix rest "///"))
                && strings.HasPrefix rest "//"
        then
          let authority := fst (Cut (String.substring 2 (String.length rest - 2) rest) "/") in
          match parseAuthority authority with
          | Err e => Err e
          | Ok host => Ok (mkURL scheme host)
          end
        else Ok (mkURL scheme "")
    end.

(** [url.Parse]: the fragment is cut off first. *)
Definition Parse (rawURL : string) : result URL := parse (fst (Cut rawURL "#")).

End url.

(** ** The collaborators of the plugin *)

(** The two services of the network that [validateRegistryURL] calls:
    [url.Parse], of which the plugin reads the scheme and the host, and the
    resolver [net.LookupIP]. *)
Class Network : Type := {
  url_Parse : string -> result url.URL;
  net_LookupIP : string -> result (list net.IP)
}.

(** Values of type [any] in configuration and output maps. *)
#[warnings="-register-all"]
Inductive any : Type :=
  | ANil
  | AString (s : string)
  | ABool (b : bool)
  | AInt (n : Z)
  | ASlice (l : list any).

(** [helpers.ConfigParser] of the plugin SDK: the getters that
    [parseConfig] calls, each with its key, its default and, for strings,
    the environment variable to fall back on. *)
Class ConfigParser : Type := {
  GetString : gmap string any -> string -> string -> string -> string;
  GetBool : gmap string any -> string -> bool -> bool;
  GetStringSlice : gmap string any -> string -> list string -> list string;
  GetInt : gmap string any -> string -> Z -> Z
}.

(** A program that may call the [CommandExecutor]: it returns, or it calls
    [Run] or [RunInDir] and goes on with the combined output and the error
    of the call. *)
Inductive Prog (A : Type) : Type :=
  | Ret (a : A)
  | Run (name : string) (args : list string) (k : string * error -> Prog A)
  | RunInDir (dir name : string) (args : list string) (k : string * error -> Prog A).
Arguments Ret {A} a.
Arguments Run {A} name args k.
Arguments RunInDir {A} dir name args k.

(** [CommandExecutor], over the state [S] of the executor. *)
Class CommandExecutor (S : Type) : Type := {
  exec_Run : string -> list string -> S -> (string * error) * S;
  exec_RunInDir : string -> string -> list string -> S -> (string * error) * S
}.

(** Running a program against an executor. *)
Fixpoint run_with {S A : Type} `{CommandExecutor S} (p : Prog A) (s : S) : A * S :=
  match p with
  | Ret a => (a, s)
  | Run name args k =>
      let '(r, s') := exec_Run name args s in run_with (k r) s'
  | RunInDir dir name args k =>
      let '(r, s') := exec_RunInDir dir name args s in run_with (k r) s'
  end.

(** The number of executor calls on the path that a program takes against
    an executor. *)
Fixpoint calls_made {S A : Type} `{CommandExecutor S} (p : Prog A) (s : S) : nat :=
  match p with
  | Ret _ => O
  | Run name args k =>
      let '(r, s') := exec_Run name args s in Datatypes.S (calls_made (k r) s')
  | RunInDir dir name args k =>
      let '(r, s') := exec_RunInDir dir name args s in Datatypes.S (calls_made (k r) s')
  end.

(** [ExecutorCall] and [MockCommandExecutor] of the tests: the mock records
    every call and answers with its [RunFunc] or [RunInDirFunc]. *)
Record ExecutorCall : Type := mkCall {
  Method : string; call_Dir : string; call_Name : string; Args : list string
}.

Record MockCommandExecutor : Type := mkMock {
  RunFunc : option (string -> list string -> string * error);
  RunInDirFunc : option (string -> string -> list string -> string * error);
  calls : list ExecutorCall
}.

#[export] Instance mock_executor : CommandExecutor MockCommandExecutor := {
  exec_Run name args m :=
    let m' := mkMock (RunFunc m) (RunInDirFunc m)
                (calls m ++ [mkCall "Run" "" name args]) in
    (match RunFunc m with
     | Some f => f name args
     | None => ("success"%string, None)
     end, m');
  exec_RunInDir dir name args m :=
    let m' := mkMock (RunFunc m) (RunInDirFunc m)
                (calls m ++ [mkCall "RunInDir" dir name args]) in
    (match RunInDirFunc m with
     | Some f => f dir name args
     | None => ("success"%string, None)
     end, m')
}.

(** ** The plugin *)

(** [Config]. *)
Record Config : Type := mkConfig {
  Token : string;
  Registry : string;
  AllowDirty : bool;
  NoVerify : bool;
  ManifestPath : string;
  Features : list string;
  AllFeatures : bool;
  NoDefaultFeatures : bool;
  Jobs : Z
}.

(** [plugin.Hook] is a string type. *)
Definition Hook : Type := string.
Definition HookPostPublish : Hook := "post-publish".
Definition HookPrePublish : Hook := "pre-publish".

(** [plugin.ReleaseContext]. *)
Record ReleaseContext : Type := mkReleaseContext {
  Version : string;
  PreviousVersion : string;
  RepositoryURL : string
}.

(** [plugin.ExecuteRequest]. *)
Record ExecuteRequest : Type := mkExecuteRequest {
  req_Hook : Hook;
  req_Config : gmap string any;
  req_Context : ReleaseContext;
  DryRun : bool
}.

(** [plugin.ExecuteResponse]. *)
Record ExecuteResponse : Type := mkExecuteResponse {
  Success : bool;
  Message : string;
  Error : string;
  Outputs : gmap string any
}.

(** [fmt.Sprintf("%d", n)]. *)
Definition Sprintf_d (n : Z) : string := NilEmpty.string_of_int (Z.to_int n).

Definition nonempty (s : string) : bool := negb (String.eqb s "").

(** The two conditions of a manifest path that is not the default one:
    [cfg.ManifestPath != "" && cfg.ManifestPath != "Cargo.toml"]. *)
Definition custom_manifest (cfg : Config) : bool :=
  nonempty (ManifestPath cfg) && negb (String.eqb (ManifestPath cfg) "Cargo.toml").

(** [buildPublishArgs]: the arguments of [cargo], appended flag by flag. *)
Definition buildPublishArgs (cfg : Config) : list string :=
  let args := ["publish"%string] in
  let args := if nonempty (Token cfg)
              then args ++ ["--token"%string; Token cfg] else args in
  let args := if nonempty (Registry cfg)
              then args ++ ["--registry"%string; Registry cfg] else args in
  let args := if AllowDirty cfg then args ++ ["--allow-dirty"%string] else args in
  let args := if NoVerify cfg then args ++ ["--no-verify"%string] else args in
  let args := if custom_manifest cfg
              then args ++ ["--manifest-path"%string; ManifestPath cfg] else args in
  let args := if (0 <? length (Features cfg))%nat
              then args ++ ["--features"%string; strings.Join (Features cfg) ","]
              else args in
  let args := if AllFeatures cfg then args ++ ["--all-features"%string] else args in
  let args := if NoDefaultFeatures cfg
              then args ++ ["--no-default-features"%string] else args in
  let args := if 0 <? Jobs cfg
              then args ++ ["--jobs"%string; Sprintf_d (Jobs cfg)] else args in
  args.

(** [getRegistryName]. *)
Definition getRegistryName (cfg : Config) : string :=
  if nonempty (Registry cfg) then Registry cfg else "crates.io".

(** [validatePath]. *)
Definition validatePath (path : string) : error :=
  if String.eqb path "" then None
  else
    let cleaned := filepath.Clean path in
    if filepath.IsAbs cleaned then Some "absolute paths are not allowed"%string
    else if strings.HasPrefix cleaned ".."
            || strings.Contains cleaned (String filepath.Separator "..")
    then Some "path traversal detected: cannot use '..' to escape working directory"%string
    else None.

(** The regular expression [^[a-zA-Z][a-zA-Z0-9.-]*$] of
    [validateRegistryURL], as [MatchString] decides it: the text is one byte
    of the first class followed by bytes of the second class only. *)
Module validName.

Definition in_range (lo hi c : ascii) : bool :=
  (nat_of_ascii lo <=? nat_of_ascii c)%nat && (nat_of_ascii c <=? nat_of_ascii hi)%nat.

(** [[a-zA-Z]] *)
Definition first_class (c : ascii) : bool :=
  in_range "a" "z" c || in_range "A" "Z" c.

(** [[a-zA-Z0-9.-]] *)
Definition rest_class (c : ascii) : bool :=
  in_range "a" "z" c || in_range "A" "Z" c || in_range "0" "9" c
  || Ascii.eqb c "." || Ascii.eqb c "-".

Fixpoint star_rest (s : string) : bool :=
  match s with
  | EmptyString => true
  | String c s' => rest_class c && star_rest s'
  end.

Definition MatchString (s : string) : bool :=
  match s with
  | EmptyString => false
  | String c s' => first_class c && star_rest s'
  end.

End validName.

(** [isPrivateIP]: the six private ranges, then the two cloud metadata
    endpoints, each with the network that [net.ParseCIDR] returns for it
    (the eight literals parse, so that no range is skipped), and then the
    four predicates of [net.IP]. *)
Definition privateRanges : list net.IPNet :=
  [ net.ParseCIDR [x0a; x00; x00; x00] 8     (* "10.0.0.0/8" *)
  ; net.ParseCIDR [xac; x10; x00; x00] 12    (* "172.16.0.0/12" *)
  ; net.ParseCIDR [xc0; xa8; x00; x00] 16    (* "192.168.0.0/16" *)
  ; net.ParseCIDR [x7f; x00; x00; x00] 8     (* "127.0.0.0/8" *)
  ; net.ParseCIDR [xa9; xfe; x00; x00] 16    (* "169.254.0.0/16", link-local *)
  ; net.ParseCIDR [x00; x00; x00; x00] 8     (* "0.0.0.0/8" *)
  ].

Definition cloudMetadata : list net.IPNet :=
  [ net.ParseCIDR [xa9; xfe; xa9; xfe] 32    (* "169.254.169.254/32" *)
  ; net.ParseCIDR [xfd; x00; x0e; xc2; x00; x00; x00; x00;
                   x00; x00; x00; x00; x00; x00; x02; x54] 128
                                             (* "fd00:ec2::254/128" *)
  ].

Definition isPrivateIP (ip : net.IP) : bool :=
  let allRanges := privateRanges ++ cloudMetadata in
  if existsb (fun block => net.Contains block ip) allRanges then true
  else if net.IsLoopback ip || net.IsLinkLocalUnicast ip
          || net.IsLinkLocalMulticast ip || net.IsPrivate ip
  then true
  else false.

Section Plugin.

Context {N : Network} {P : ConfigParser}.

(** [validateRegistryURL]. *)
Definition validateRegistryURL (registryURL : string) : error :=
  if negb (strings.Contains registryURL "://") then
    if negb (validName.MatchString registryURL)
    then Some "invalid registry name format"%string
    else None
  else
    match url_Parse registryURL with
    | Err msg => Some ("invalid URL: " +:+ msg)
    | Ok parsedURL =>
        let host := url.Hostname parsedURL in
        let isLocalhost :=
          String.eqb host "localhost" || String.eqb host "127.0.0.1"
          || String.eqb host "::1" in
        if negb (String.eqb (url.Scheme parsedURL) "https") && negb isLocalhost
           && negb (String.eqb (url.Scheme parsedURL) "sparse+https")
        then Some ("only HTTPS URLs are allowed (got "
                   +:+ url.Scheme parsedURL +:+ ")")
        else if isLocalhost then None
        else
          match net_LookupIP host with
          | Err _ => None
          | Ok ips =>
              if existsb isPrivateIP ips
              then Some "URLs pointing to private networks are not allowed"%string
              else None
          end
    end.

(** [validateConfig]. *)
Definition validateConfig (cfg : Config) : error :=
  match validatePath (ManifestPath cfg) with
  | Some err => Some ("invalid manifest_path: " +:+ err)
  | None =>
      if nonempty (Registry cfg) then
        match validateRegistryURL (Registry cfg) with
        | Some err => Some ("invalid registry: " +:+ err)
        | None => None
        end
      else None
  end.

(** [parseConfig]. *)
Definition parseConfig (raw : gmap string any) : Config :=
  {| Token := GetString raw "token" "CARGO_REGISTRY_TOKEN" "";
     Registry := GetString raw "registry" "" "";
     AllowDirty := GetBool raw "allow_dirty" false;
     NoVerify := GetBool raw "no_verify" false;
     ManifestPath := GetString raw "manifest_path" "" "Cargo.toml";
     Features := GetStringSlice raw "features" [];
     AllFeatures := GetBool raw "all_features" false;
     NoDefaultFeatures := GetBool raw "no_default_features" false;
     Jobs := GetInt raw "jobs" 0 |}.

Definition failure (msg : string) : ExecuteResponse :=
  {| Success := false; Message := ""; Error := msg; Outputs := ∅ |}.

(** The response of a dry run. *)
Definition dry_run_response (cfg : Config) (version : string)
    (args : list string) : ExecuteResponse :=
  {| Success := true;
     Message := "Would publish crate version " +:+ version +:+ " to "
                +:+ getRegistryName cfg;
     Error := "";
     Outputs :=
       <["version" := AString version]>
       (<["registry" := AString (Registry cfg)]>
       (<["manifest_path" := AString (ManifestPath cfg)]>
       (<["allow_dirty" := ABool (AllowDirty cfg)]>
       (<["no_verify" := ABool (NoVerify cfg)]>
       (<["command" := AString ("cargo publish " +:+ strings.Join args " ")]>
        ∅))))) |}.

(** The response to the outcome of [cargo publish]. *)
Definition publish_response (cfg : Config) (version : string)
    (r : string * error) : ExecuteResponse :=
  match r with
  | (output, Some err) =>
      failure ("cargo publish failed: " +:+ err
               +:+ String (ascii_of_nat 10) "Output: " +:+ output)
  | (output, None) =>
      {| Success := true;
         Message := "Published crate version " +:+ version +:+ " to "
                    +:+ getRegistryName cfg;
         Error := "";
         Outputs :=
           <["version" := AString version]>
           (<["registry" := AString (Registry cfg)]>
           (<["output" := AString output]> ∅)) |}
  end.

(** [publish]: the response together with the Go error, which is always
    [nil]. *)
Definition publish (cfg : Config) (releaseCtx : ReleaseContext)
    (dryRun : bool) : Prog (ExecuteResponse * error) :=
  match validateConfig cfg with
  | Some err =>
      Ret (failure ("configuration validation failed: " +:+ err), None)
  | None =>
      let args := buildPublishArgs cfg in
      let version := strings.TrimPrefix (Version releaseCtx) "v" in
      if dryRun then Ret (dry_run_response cfg version args, None)
      else if negb (nonempty (Token cfg)) then
        Ret (failure "no API token provided: set token in config or CARGO_REGISTRY_TOKEN environment variable", None)
      else
        let workDir :=
          if custom_manifest cfg then filepath.Dir (ManifestPath cfg)
          else ""%string in
        if nonempty workDir then
          RunInDir workDir "cargo" args
            (fun r => Ret (publish_response cfg version r, None))
        else
          Run "cargo" args
            (fun r => Ret (publish_response cfg version r, None))
  end.

(** [Execute]. *)
Definition Execute (req : ExecuteRequest) : Prog (ExecuteResponse * error) :=
  let cfg := parseConfig (req_Config req) in
  if String.eqb (req_Hook req) HookPostPublish then
    publish cfg (req_Context req) (DryRun req)
  else
    Ret ({| Success := true;
            Message := "Hook " +:+ req_Hook req +:+ " not handled";
            Error := ""; Outputs := ∅ |}, None).

End Plugin.

(** ** Instances of the collaborators *)

(** The network whose URL parser is the model [url.Parse] and whose
    resolver is [lookup]. *)
Definition go_network (lookup : string -> result (list net.IP)) : Network :=
  {| url_Parse := url.Parse; net_LookupIP := lookup |}.

(** Modelled from the spec: the getters of [helpers.ConfigParser], which
    belong to the plugin SDK.  A field takes the value that the configuration
    map holds under its key, and its default when the key is absent; a string
    with an environment variable takes the value of that variable before the
    default ("explicit config value, then a fixed environment variable name,
    then empty string").  The theorems below hold for every [ConfigParser];
    this one serves the sample requests, over the environment [env]. *)
Definition sdk_parser (env : gmap string string) : ConfigParser :=
  {| GetString raw key envVar defaultVal :=
       match raw !! key with
       | Some (AString v) => v
       | _ =>
           match (if String.eqb envVar "" then None else env !! envVar) with
           | Some v => if String.eqb v "" then defaultVal else v
           | None => defaultVal
           end
       end;
     GetBool raw key defaultVal :=
       match raw !! key with
       | Some (ABool b) => b
       | _ => defaultVal
       end;
     GetStringSlice raw key defaultVal :=
       match raw !! key with
       | Some (ASlice l) =>
           omap (fun a => match a with AString s => Some s | _ => None end) l
       | _ => defaultVal
       end;
     GetInt raw key defaultVal :=
       match raw !! key with
       | Some (AInt n) => n
       | _ => defaultVal
       end |}.

Definition no_dns : string -> result (list net.IP) :=
  fun _ => Err "no such host".

(** ** The address ranges of the registry check, as the specification
    lists them *)

(** The value of a byte. *)
Definition byte_val (b : Byte.byte) : N := Byte.to_N b.

(** The IPv6 metadata address [fd00:ec2::254]. *)
Definition metadata_v6 : net.IP :=
  [xfd; x00; x0e; xc2; x00; x00; x00; x00;
   x00; x00; x00; x00; x00; x00; x02; x54].

(** The ranges and the metadata addresses named by the specification, read
    on the address that the byte slice denotes: an IPv4 address (in its
    short form, or mapped in 16 bytes) or an IPv6 address. *)
Definition in_listed_range (ip : net.IP) : bool :=
  match net.To4 ip with
  | Some [a; b; c; d] =>
      let a := byte_val a in
      let b := byte_val b in
      let c := byte_val c in
      let d := byte_val d in
      (a =? 10)%N                                            (* 10.0.0.0/8 *)
      || ((a =? 172)%N && (16 <=? b)%N && (b <=? 31)%N)      (* 172.16.0.0/12 *)
      || ((a =? 192)%N && (b =? 168)%N)                      (* 192.168.0.0/16 *)
      || (a =? 127)%N                                        (* 127.0.0.0/8 *)
      || ((a =? 169)%N && (b =? 254)%N)                      (* 169.254.0.0/16 *)
      || (a =? 0)%N                                          (* 0.0.0.0/8 *)
      || ((a =? 169)%N && (b =? 254)%N && (c =? 169)%N && (d =? 254)%N)
                                                             (* 169.254.169.254 *)
  | Some _ => false
  | None =>
      (length ip =? 16)%nat &&
      (net.bytes_eqb ip net.IPv6loopback                     (* ::1 *)
       || ((byte_val (net.byte_at ip 0) =? 254)%N
           && (128 <=? byte_val (net.byte_at ip 1))%N
           && (byte_val (net.byte_at ip 1) <=? 191)%N)       (* fe80::/10 *)
       || ((252 <=? byte_val (net.byte_at ip 0))%N
           && (byte_val (net.byte_at ip 0) <=? 253)%N)       (* fc00::/7 *)
       || net.bytes_eqb ip metadata_v6)                      (* fd00:ec2::254 *)
  end.

(** The link-local multicast addresses: 224.0.0.0/24, and the IPv6
    addresses [ffx2::/16]. *)
Definition link_local_multicast (ip : net.IP) : bool :=
  match net.To4 ip with
  | Some [a; b; c; d] =>
      (byte_val a =? 224)%N && (byte_val b =? 0)%N && (byte_val c =? 0)%N
  | Some _ => false
  | None =>
      (length ip =? 16)%nat
      && (byte_val (net.byte_at ip 0) =? 255)%N
      && (byte_val (net.byte_at ip 1) mod 16 =? 2)%N
  end.

(** ** The other notions of the specification *)

(** The segments of a slash-separated path. *)
Fixpoint segments (s : string) : list string :=
  match s with
  | EmptyString => [EmptyString]
  | String c s' =>
      if filepath.IsPathSeparator c then EmptyString :: segments s'
      else
        match segments s' with
        | seg :: rest => String c seg :: rest
        | [] => [String c EmptyString]
        end
  end.

(** The text begins with a slash. *)
Definition starts_sep (l : list ascii) : bool :=
  match l with
  | c :: _ => filepath.IsPathSeparator c
  | [] => false
  end.

(** The text has no slash. *)
Fixpoint no_separator (s : string) : bool :=
  match s with
  | EmptyString => true
  | String c s' => negb (filepath.IsPathSeparator c) && no_separator s'
  end.

(** A path with a parent-directory segment. *)
Definition has_parent_segment (path : string) : bool :=
  existsb (String.eqb "..") (segments path).

(** A path with a segment that begins with two dots. *)
Definition has_dotdot_segment (path : string) : bool :=
  existsb (fun seg => strings.HasPrefix seg "..") (segments path).

(** A bare registry name: a leading letter, then letters, digits, dots and
    dashes. *)
Definition ascii_letter (c : ascii) : Prop :=
  (97 <= nat_of_ascii c <= 122)%nat \/ (65 <= nat_of_ascii c <= 90)%nat.

Definition name_char (c : ascii) : Prop :=
  ascii_letter c \/ (48 <= nat_of_ascii c <= 57)%nat
  \/ c = "."%char \/ c = "-"%char.

Definition registry_name (s : string) : Prop :=
  exists c rest, s = String c rest /\ ascii_letter c
                 /\ Forall name_char (list_ascii_of_string rest).

(** The host is one of the loopback forms. *)
Definition loopback_host (host : string) : Prop :=
  host = "localhost"%string \/ host = "127.0.0.1"%string \/ host = "::1"%string.

(** The scheme is one of the two secure schemes. *)
Definition secure_scheme (scheme : string) : Prop :=
  scheme = "https"%string \/ scheme = "sparse+https"%string.

(** The version without one leading [v]. *)
Definition strip_leading_v (version : string) : string :=
  match version with
  | String "v"%char rest => rest
  | _ => version
  end.

(** The optional flags of [cargo publish], in the order of the
    specification. *)
Inductive flag : Type :=
  | FToken | FRegistry | FAllowDirty | FNoVerify | FManifestPath
  | FFeatures | FAllFeatures | FNoDefaultFeatures | FJobs.

Definition flag_order : list flag :=
  [FToken; FRegistry; FAllowDirty; FNoVerify; FManifestPath;
   FFeatures; FAllFeatures; FNoDefaultFeatures; FJobs].

Definition flag_name (f : flag) : string :=
  match f with
  | FToken => "--token"
  | FRegistry => "--registry"
  | FAllowDirty => "--allow-dirty"
  | FNoVerify => "--no-verify"
  | FManifestPath => "--manifest-path"
  | FFeatures => "--features"
  | FAllFeatures => "--all-features"
  | FNoDefaultFeatures => "--no-default-features"
  | FJobs => "--jobs"
  end.

(** The field of the flag is not at its default: true, non-empty or
    positive; the default manifest path is [Cargo.toml], which the empty
    path stands for too. *)
Definition non_default (cfg : Config) (f : flag) : Prop :=
  match f with
  | FToken => Token cfg <> ""%string
  | FRegistry => Registry cfg <> ""%string
  | FAllowDirty => AllowDirty cfg = true
  | FNoVerify => NoVerify cfg = true
  | FManifestPath => ManifestPath cfg <> ""%string /\ ManifestPath cfg <> "Cargo.toml"%string
  | FFeatures => Features cfg <> []
  | FAllFeatures => AllFeatures cfg = true
  | FNoDefaultFeatures => NoDefaultFeatures cfg = true
  | FJobs => 0 < Jobs cfg
  end.

#[export] Instance non_default_dec cfg f : Decision (non_default cfg f).
Proof. destruct f; cbn; apply _. Defined.

(** The decimal digits of a positive number, most significant first. *)
Definition decimal (n : Z) : string :=
  NilEmpty.string_of_uint (Pos.to_uint (Z.to_pos n)).

(** The value that follows the flag, for the flags that take one. *)
Definition flag_value (cfg : Config) (f : flag) : list string :=
  match f with
  | FToken => [Token cfg]
  | FRegistry => [Registry cfg]
  | FManifestPath => [ManifestPath cfg]
  | FFeatures => [String.concat "," (Features cfg)]
  | FJobs => [decimal (Jobs cfg)]
  | _ => []
  end.

(** The words that a flag contributes to the command line. *)
Definition flag_words (cfg : Config) (f : flag) : list string :=
  if decide (non_default cfg f) then flag_name f :: flag_value cfg f else [].

(** The reference argument list: the subcommand, then the flags in order. *)
Definition reference_args (cfg : Config) : list string :=
  "publish"%string :: concat (map (flag_words cfg) flag_order).

(** ** Sample inputs *)

Definition sample_config (manifest : string) : Config :=
  {| Token := "test-token"; Registry := ""; AllowDirty := false;
     NoVerify := false; ManifestPath := manifest; Features := [];
     AllFeatures := false; NoDefaultFeatures := false; Jobs := 0 |}.

Definition full_config : Config :=
  {| Token := "test-token"; Registry := "my-registry"; AllowDirty := true;
     NoVerify := true; ManifestPath := "path/to/Cargo.toml";
     Features := ["f1"; "f2"]%string; AllFeatures := false;
     NoDefaultFeatures := true; Jobs := 8 |}.

Definition sample_lookup : string -> result (list net.IP) :=
  fun _ => Ok [[x08; x08; x08; x08]; [x0a; x00; x00; x01]].

(** ** The metadata of the plugin and its validation entry point *)

(** [plugin.Info]. *)
Record Info : Type := mkInfo {
  Name : string;
  info_Version : string;
  Description : string;
  Author : string;
  Hooks : list Hook;
  ConfigSchema : string
}.

(** The text in which every single quote stands for a double quote. *)
Fixpoint double_quoted (s : string) : string :=
  match s with
  | EmptyString => EmptyString
  | String c s' =>
      String (if Ascii.eqb c "'" then ascii_of_nat 34 else c) (double_quoted s')
  end.

(** [GetInfo]; the schema is the raw string of the source, its double
    quotes written as single quotes. *)
Definition GetInfo : Info :=
  {| Name := "crates";
     info_Version := "2.0.0";
     Description := "Publish crates to crates.io (Rust)";
     Author := "Relicta Team";
     Hooks := [HookPostPublish];
     ConfigSchema := double_quoted "{
			'type': 'object',
			'properties': {
				'token': {'type': 'string', 'description': 'Crates.io API token (or use CARGO_REGISTRY_TOKEN env)'},
				'registry': {'type': 'string', 'description': 'Registry to publish to (optional, for private registries)'},
				'allow_dirty': {'type': 'boolean', 'description': 'Allow publishing with uncommitted changes', 'default': false},
				'no_verify': {'type': 'boolean', 'description': 'Skip crate verification', 'default': false},
				'manifest_path': {'type': 'string', 'description': 'Path to Cargo.toml', 'default': 'Cargo.toml'},
				'features': {'type': 'array', 'items': {'type': 'string'}, 'description': 'Features to activate'},
				'all_features': {'type': 'boolean', 'description': 'Activate all available features', 'default': false},
				'no_default_features': {'type': 'boolean', 'description': 'Do not activate the default feature', 'default': false},
				'jobs': {'type': 'integer', 'description': 'Number of parallel jobs'}
			}
		}" |}.

(** [plugin.ValidationError] and [plugin.ValidateResponse]. *)
Record ValidationError : Type := mkValidationError {
  Field : string;
  ve_Message : string
}.

Record ValidateResponse : Type := mkValidateResponse {
  Valid : bool;
  Errors : list ValidationError
}.

(** Modelled from the spec: [helpers.ValidationBuilder] of the plugin SDK,
    which gathers "a list of per-field validation errors plus an overall
    validity flag": the errors in the order in which they were added, and a
    response that is valid when there is none. *)
Definition NewValidationBuilder : list ValidationError := [].

Definition AddError (vb : list ValidationError) (field message : string)
    : list ValidationError :=
  vb ++ [mkValidationError field message].

Definition Build (vb : list ValidationError) : ValidateResponse :=
  {| Valid := (length vb =? 0)%nat; Errors := vb |}.

(** The type assertion [config["jobs"].(float64)] followed by [jobs < 0]:
    whether a configuration value is a [float64] below zero.  Floating-point
    numbers are not among the values of [any] here, so this reading of a
    value is an interface. *)
Class Float64 : Type := {
  negative_float64 : any -> bool
}.

Section Validation.

Context {N : Network} {P : ConfigParser} {F : Float64}.

(** [Validate]: the response together with the Go error, which is always
    [nil]. *)
Definition Validate (config : gmap string any) : ValidateResponse * error :=
  let vb := NewValidationBuilder in
  let manifestPath := GetString config "manifest_path" "" "Cargo.toml" in
  let vb := match validatePath manifestPath with
            | Some err => AddError vb "manifest_path" err
            | None => vb
            end in
  let registry := GetString config "registry" "" "" in
  let vb := if nonempty registry then
              match validateRegistryURL registry with
              | Some err => AddError vb "registry" err
              | None => vb
              end
            else vb in
  let vb := match config !! "jobs" with
            | Some jobs =>
                if negative_float64 jobs
                then AddError vb "jobs" "jobs must be a positive integer"
                else vb
            | None => vb
            end in
  (Build vb, None).

End Validation.

(** A reading of the integers of [any] as the numbers of a decoded JSON
    document, for the sample requests. *)
Definition json_numbers : Float64 :=
  {| negative_float64 v := match v with AInt n => n <? 0 | _ => false end |}.

(** ** The lexical meaning of [filepath.Clean] *)

(** The elements of a path: the texts between its separators. *)
Fixpoint elements (path : list ascii) : list (list ascii) :=
  match path with
  | [] => [[]]
  | c :: path' =>
      if filepath.IsPathSeparator c then [] :: elements path'
      else
        match elements path' with
        | e :: es => (c :: e) :: es
        | [] => [[c]]
        end
  end.

(** The elements joined by separators. *)
Fixpoint join (es : list (list ascii)) : list ascii :=
  match es with
  | [] => []
  | [e] => e
  | e :: es' => e ++ filepath.Separator :: join es'
  end.

Definition dot : list ascii := ["."%char].
Definition dotdot : list ascii := ["."%char; "."%char].

(** A cleaned path, as the number of parent-directory elements that it
    begins with and the names that follow them. *)
Definition lexical : Type := (nat * list (list ascii))%type.

(** The effect of one element on a cleaned path: an empty element and [.]
    change nothing, [..] removes the last name, or is kept in front of a
    relative path that has no name left, and a name is added at the end. *)
Definition step (rooted : bool) (st : lexical) (e : list ascii) : lexical :=
  let '(dots, names) := st in
  if bool_decide (e = []) || bool_decide (e = dot) then st
  else if bool_decide (e = dotdot) then
    match names with
    | [] => if rooted then st else (S dots, [])
    | _ => (dots, removelast names)
    end
  else (dots, names ++ [e]).

(** The cleaned path of a text, from a cleaned path to start with. *)
Definition lexical_of (rooted : bool) (path : list ascii) (st : lexical) : lexical :=
  fold_left (step rooted) (elements path) st.

(** The bytes of a cleaned path, and the index where [..] must stop. *)
Definition render (rooted : bool) (st : lexical) : list ascii :=
  (if rooted then [filepath.Separator] else [])
  ++ join (repeat dotdot (fst st) ++ snd st).

Definition dotdot_index (rooted : bool) (st : lexical) : nat :=
  if rooted then 1%nat else length (join (repeat dotdot (fst st))).

(** A name: not empty, without separator, and neither [.] nor [..]. *)
Definition no_sep (e : list ascii) : Prop :=
  Forall (fun c => filepath.IsPathSeparator c = false) e.

Definition is_name (e : list ascii) : Prop :=
  e <> [] /\ no_sep e /\ e <> dot /\ e <> dotdot.

(** The rest of a path begins at the end of an element. *)
Definition at_boundary (rest : list ascii) : Prop :=
  filepath.at_end_or_sep rest = true.

(** A well-formed cleaned path: all its names are names, and a rooted one
    begins with no parent-directory element. *)
Definition wf (rooted : bool) (st : lexical) : Prop :=
  (rooted = true -> fst st = 0%nat) /\ Forall is_name (snd st).

(** ** The model on the test tables of the standard library and of the
    plugin *)

Example Clean_table :
  map filepath.Clean
    ["abc"; "abc/def"; "a/b/c"; "."; ".."; "../.."; "../../abc"; "/abc"; "/";
     ""; "abc/"; "abc/def/"; "a/b/c/"; "./"; "../"; "../../"; "/abc/";
     "abc//def//ghi"; "//abc"; "///abc"; "//abc//"; "abc//";
     "abc/./def"; "/./abc/def"; "abc/.";
     "abc/def/ghi/../jkl"; "abc/def/../ghi/../jkl"; "abc/def/.."; "abc/def/../..";
     "/abc/def/../.."; "abc/def/../../.."; "/abc/def/../../..";
     "abc/def/../../../ghi/jkl/../../../mno"; "/../abc";
     "abc/./../def"; "abc//./../def"; "abc/../../././../def"]%string
  = ["abc"; "abc/def"; "a/b/c"; "."; ".."; "../.."; "../../abc"; "/abc"; "/";
     "."; "abc"; "abc/def"; "a/b/c"; "."; ".."; "../.."; "/abc";
     "abc/def/ghi"; "/abc"; "/abc"; "/abc"; "abc";
     "abc/def"; "/abc/def"; "abc";
     "abc/def/jkl"; "abc/jkl"; "abc"; ".";
     "/"; ".."; "/";
     "../../mno"; "/abc";
     "def"; "def"; "../../def"]%string.
Proof. reflexivity. Qed.

Example Dir_table :
  map filepath.Dir
    [""; "."; "/."; "/"; "/foo"; "x/"; "abc"; "abc/def"; "a/b/.x"; "a/b/c.";
     "a/b/c.x"; "crates/lib/Cargo.toml"; "./Cargo.toml"]%string
  = ["."; "."; "/"; "/"; "/"; "x"; "."; "abc"; "a/b"; "a/b";
     "a/b"; "crates/lib"; "."]%string.
Proof. reflexivity. Qed.

Example TrimPrefix_table :
  map (fun s => strings.TrimPrefix s "v") ["v1.2.3"; "1.2.3"; "vv1"; "v"; ""]%string
  = ["1.2.3"; "1.2.3"; "v1"; ""; ""]%string.
Proof. reflexivity. Qed.

Example Parse_table :
  map url.Parse
    ["https://host/path"; "sparse+https://host/index"; "http://localhost:8080/index";
     "HTTP://user:pw@[::1]:80/x?q=1#f"; "mailto:a@b.c"; "/a://x"; "http://h:x/";
     "://x"; "1a://h"]%string
  = [Ok (url.mkURL "https" "host"); Ok (url.mkURL "sparse+https" "host");
     Ok (url.mkURL "http" "localhost:8080"); Ok (url.mkURL "http" "[::1]:80");
     Ok (url.mkURL "mailto" ""); Ok (url.mkURL "" "");
     Err "invalid port after host"; Err "missing protocol scheme";
     Err "first path segment in URL cannot contain colon"].
Proof. reflexivity. Qed.

Example Hostname_table :
  map url.splitHostPort ["host"; "localhost:8080"; "[::1]:80"; "[::1]"; "127.0.0.1:8080"]%string
  = ["host"; "localhost"; "::1"; "::1"; "127.0.0.1"]%string.
Proof. reflexivity. Qed.

(** [TestValidatePath]. *)
Example validatePath_table :
  map (fun p => bool_decide (validatePath p = None))
    [""; "Cargo.toml"; "crates/lib/Cargo.toml"; "./Cargo.toml"; "/etc/passwd";
     "../../../etc/passwd"; "crates/../../etc/passwd"]%string
  = [true; true; true; true; false; false; false].
Proof. reflexivity. Qed.

(** [TestValidateRegistryURL], with a resolver that finds no host. *)
Example validateRegistryURL_table :
  map (fun r => bool_decide (validateRegistryURL (N := go_network no_dns) r = None))
    ["my-registry"; "my.registry.com"; "https://my-registry.com/crates";
     "sparse+https://my-registry.com/index"; "http://insecure-registry.com";
     "http://localhost:8080/index"; "http://127.0.0.1:8080/index"; "my_registry!@#"]%string
  = [true; true; true; true; false; true; true; false].
Proof. reflexivity. Qed.

(** [TestBuildPublishArgs], the full configuration. *)
Example buildPublishArgs_full :
  buildPublishArgs full_config
  = ["publish"; "--token"; "test-token"; "--registry"; "my-registry";
     "--allow-dirty"; "--no-verify"; "--manifest-path"; "path/to/Cargo.toml";
     "--features"; "f1,f2"; "--no-default-features"; "--jobs"; "8"]%string.
Proof. reflexivity. Qed.

Example isPrivateIP_table :
  map isPrivateIP
    [ [x0a; x01; x02; x03]; [xac; x1f; x00; x01]; [xac; x20; x00; x01];
      [xa9; xfe; xa9; xfe]; [x08; x08; x08; x08]; [xe0; x00; x00; x01];
      [x00; x00; x00; x00; x00; x00; x00; x00; x00; x00; xff; xff; xc0; xa8; x01; x01];
      metadata_v6; net.IPv6loopback;
      [x20; x01; x0d; xb8; x00; x00; x00; x00; x00; x00; x00; x00; x00; x00; x00; x01];
      [xff; x02; x00; x00; x00; x00; x00; x00; x00; x00; x00; x00; x00; x00; x00; x01] ]
  = [true; true; false; true; false; true; true; true; true; false; true].
Proof. reflexivity. Qed.

(** The listed ranges at their borders: 172.15.255.255, 172.16.0.0,
    172.31.255.255, 172.32.0.0, 11.0.0.0, 0.1.2.3, 169.254.0.1, 169.253.0.1,
    and fe7f::, fe80::, febf::, fec0::, fbff::, fc00::, fdff::, fe00::. *)
Example in_listed_range_table :
  map in_listed_range
    [ [xac; x0f; xff; xff]; [xac; x10; x00; x00]; [xac; x1f; xff; xff];
      [xac; x20; x00; x00]; [x0b; x00; x00; x00]; [x00; x01; x02; x03];
      [xa9; xfe; x00; x01]; [xa9; xfd; x00; x01];
      [xfe; x7f; x00; x00; x00; x00; x00; x00; x00; x00; x00; x00; x00; x00; x00; x00];
      [xfe; x80; x00; x00; x00; x00; x00; x00; x00; x00; x00; x00; x00; x00; x00; x00];
      [xfe; xbf; x00; x00; x00; x00; x00; x00; x00; x00; x00; x00; x00; x00; x00; x00];
      [xfe; xc0; x00; x00; x00; x00; x00; x00; x00; x00; x00; x00; x00; x00; x00; x00];
      [xfb; xff; x00; x00; x00; x00; x00; x00; x00; x00; x00; x00; x00; x00; x00; x00];
      [xfc; x00; x00; x00; x00; x00; x00; x00; x00; x00; x00; x00; x00; x00; x00; x00];
      [xfd; xff; x00; x00; x00; x00; x00; x00; x00; x00; x00; x00; x00; x00; x00; x00];
      [xfe; x00; x00; x00; x00; x00; x00; x00; x00; x00; x00; x00; x00; x00; x00; x00] ]
  = [false; true; true; false; false; true; true; false;
     false; true; true; false; false; true; true; false].
Proof. reflexivity. Qed.

(** [TestExecuteWithMockExecutor], the custom manifest path. *)
Example Execute_custom_manifest :
  calls (snd (run_with
    (Execute (N := go_network no_dns) (P := sdk_parser ∅)
       (mkExecuteRequest HookPostPublish
          (<["token" := AString "test-token"]>
             (<["manifest_path" := AString "crates/lib/Cargo.toml"]> ∅))
          (mkReleaseContext "v1.0.0" "" "") false))
    (mkMock None None [])))
  = [mkCall "RunInDir" "crates/lib" "cargo"
       ["publish"; "--token"; "test-token"; "--manifest-path"; "crates/lib/Cargo.toml"]%string].
Proof. reflexivity. Qed.

(** [TestExecuteUnhandledHook]. *)
Example Execute_unhandled_hook :
  Execute (N := go_network no_dns) (P := sdk_parser ∅)
    (mkExecuteRequest HookPrePublish ∅ (mkReleaseContext "" "" "") true)
  = Ret ({| Success := true; Message := "Hook pre-publish not handled";
            Error := ""; Outputs := ∅ |}, None).
Proof. reflexivity. Qed.

(** ** Properties of [path/filepath] *)

Module filepath_facts.
Import filepath.

Lemma element_length rest :
  (length (snd (element rest)) <= length rest)%nat.
Proof.
  induction rest as [|c rest IH]; cbn; [lia|].
  destruct (IsPathSeparator c); cbn; [lia|].
  destruct (element rest) as [e r]; cbn in *; lia.
Qed.

Lemma element_head c rest :
  IsPathSeparator c = false ->
  exists e r, element (c :: rest) = (c :: e, r) /\ (length r <= length rest)%nat.
Proof.
  intros Hc. cbn. rewrite Hc.
  pose proof (element_length rest) as Hl.
  destruct (element rest) as [e r]; cbn in Hl. eauto.
Qed.

(** The fuel that [clean_bytes] gives to the loop is enough: the loop ends
    with a buffer. *)
Lemma clean_loop_total fuel rooted rest out dotdot :
  (length rest <= fuel)%nat ->
  exists o, clean_loop fuel rooted rest out dotdot = Some o.
Proof.
  revert rest out dotdot.
  induction fuel as [|fuel IH]; intros rest out dotdot Hlen.
  - destruct rest; cbn in *; [eauto | lia].
  - destruct rest as [|c rest1]; [cbn; eauto|].
    cbn [clean_loop]. cbn in Hlen.
    destruct (IsPathSeparator c) eqn:Hsep; [apply IH; lia|].
    destruct (is_dot c && at_end_or_sep rest1); [apply IH; lia|].
    assert (Htl : (length (tl rest1) <= fuel)%nat)
      by (destruct rest1; cbn in *; lia).
    destruct (is_dot c && is_dot (hd Separator rest1) && at_end_or_sep (tl rest1)).
    + destruct (dotdot <? length out)%nat; [apply IH; exact Htl|].
      destruct (negb rooted); apply IH; exact Htl.
    + destruct (element_head c rest1 Hsep) as (e & r & He & Hr).
      rewrite He. apply IH. lia.
Qed.

Lemma backtrack_ge buf dotdot w :
  (dotdot <= w)%nat -> (dotdot <= backtrack buf dotdot w)%nat.
Proof.
  induction w as [|w IH]; intros Hle; cbn [backtrack]; [lia|].
  destruct (dotdot <? S w)%nat eqn:Hlt; cbn [andb]; [|lia].
  destruct (IsPathSeparator (index buf (S w))); cbn [negb]; [lia|].
  apply IH. apply Nat.ltb_lt in Hlt. lia.
Qed.

Lemma starts_sep_take w l :
  (1 <= w)%nat -> starts_sep (take w l) = starts_sep l.
Proof. destruct w; [lia|]. destruct l; reflexivity. Qed.

Lemma starts_sep_take_false w l :
  starts_sep l = false -> starts_sep (take w l) = false.
Proof. destruct w; [reflexivity|]. destruct l; auto. Qed.

Lemma starts_sep_app l l' :
  starts_sep (l ++ l') = if (0 <? length l)%nat then starts_sep l else starts_sep l'.
Proof. destruct l; reflexivity. Qed.

(** A rooted path is cleaned into a rooted path ... *)
Lemma clean_loop_rooted fuel rest out dotdot o :
  (1 <= dotdot)%nat -> starts_sep out = true ->
  clean_loop fuel true rest out dotdot = Some o -> starts_sep o = true.
Proof.
  revert rest out.
  induction fuel as [|fuel IH]; intros rest out Hdd Hout Hloop.
  - destruct rest; cbn in Hloop; congruence.
  - destruct rest as [|c rest1]; [cbn in Hloop; congruence|].
    cbn [clean_loop] in Hloop.
    destruct (IsPathSeparator c) eqn:Hsep; [eauto|].
    destruct (is_dot c && at_end_or_sep rest1); [eauto|].
    destruct (is_dot c && is_dot (hd Separator rest1) && at_end_or_sep (tl rest1)).
    + destruct (dotdot <? length out)%nat eqn:Hlt; cbn in Hloop; [|eauto].
      apply IH in Hloop; [exact Hloop | exact Hdd |].
      rewrite starts_sep_take; [exact Hout|].
      apply Nat.ltb_lt in Hlt.
      pose proof (backtrack_ge out dotdot (length out - 1)). lia.
    + destruct (element_head c rest1 Hsep) as (e & r & He & _).
      rewrite He in Hloop. apply IH in Hloop; [exact Hloop | exact Hdd |].
      rewrite starts_sep_app.
      destruct out as [|a out]; [discriminate|].
      cbn [andb negb orb]. rewrite orb_false_r.
      destruct (negb (length (a :: out) =? 1)%nat); exact Hout.
Qed.

(** ... and a relative path into a relative path. *)
Lemma clean_loop_unrooted fuel rest out dotdot o :
  starts_sep out = false ->
  clean_loop fuel false rest out dotdot = Some o -> starts_sep o = false.
Proof.
  revert rest out dotdot.
  induction fuel as [|fuel IH]; intros rest out dotdot Hout Hloop.
  - destruct rest; cbn in Hloop; congruence.
  - destruct rest as [|c rest1]; [cbn in Hloop; congruence|].
    cbn [clean_loop] in Hloop.
    destruct (IsPathSeparator c) eqn:Hsep; [eauto|].
    destruct (is_dot c && at_end_or_sep rest1); [eauto|].
    destruct (is_dot c && is_dot (hd Separator rest1) && at_end_or_sep (tl rest1)).
    + destruct (dotdot <? length out)%nat; cbn in Hloop.
      * apply IH in Hloop; [exact Hloop|]. apply starts_sep_take_false, Hout.
      * apply IH in Hloop; [exact Hloop|].
        destruct out as [|a out]; [reflexivity | exact Hout].
    + destruct (element_head c rest1 Hsep) as (e & r & He & _).
      rewrite He in Hloop. apply IH in Hloop; [exact Hloop|].
      destruct out as [|a out]; cbn; [exact Hsep | exact Hout].
Qed.

Lemma clean_bytes_nonempty path : clean_bytes path <> [].
Proof.
  unfold clean_bytes. destruct path as [|c path]; [discriminate|].
  destruct (clean_loop _ _ _ _ _) as [[|a o]|]; discriminate.
Qed.

Lemma clean_bytes_starts_sep path :
  starts_sep (clean_bytes path) = starts_sep path.
Proof.
  unfold clean_bytes. destruct path as [|c path]; [reflexivity|].
  cbn [starts_sep].
  destruct (IsPathSeparator c) eqn:Hsep.
  - destruct (clean_loop_total (length (c :: path)) true (tl (c :: path))
                [Separator] 1) as [o Ho]; [cbn; lia|].
    rewrite Ho. apply clean_loop_rooted in Ho; [|lia|reflexivity].
    destruct o; [discriminate | exact Ho].
  - destruct (clean_loop_total (length (c :: path)) false (c :: path) [] 0)
      as [o Ho]; [cbn; lia|].
    rewrite Ho. apply clean_loop_unrooted in Ho; [|reflexivity].
    destruct o; [reflexivity | exact Ho].
Qed.

Lemma IsAbs_bytes s : IsAbs s = starts_sep (list_ascii_of_string s).
Proof.
  destruct s as [|c s]; [reflexivity|].
  unfold IsAbs, strings.HasPrefix.
  cbn [String.prefix list_ascii_of_string starts_sep].
  unfold IsPathSeparator, Separator.
  destruct (ascii_dec "/" c) as [<-|Hne]; [destruct s; reflexivity|].
  symmetry. apply Ascii.eqb_neq. congruence.
Qed.

(** [Clean] keeps a path absolute or relative. *)
Lemma IsAbs_Clean path : IsAbs (Clean path) = IsAbs path.
Proof.
  unfold Clean. rewrite !IsAbs_bytes, list_ascii_of_string_of_list_ascii.
  apply clean_bytes_starts_sep.
Qed.

(** [Dir] never returns the empty string. *)
Lemma Dir_nonempty path : Dir path <> ""%string.
Proof.
  unfold Dir. pose proof (clean_bytes_nonempty (dir_prefix (list_ascii_of_string path))).
  destruct (clean_bytes _); [congruence | discriminate].
Qed.

End filepath_facts.

(** ** Properties of [isPrivateIP] *)

Module net_facts.
Import net.

Lemma band_ff x : band x xff = x.
Proof. destruct x; reflexivity. Qed.

Lemma band_00 x : band x x00 = x00.
Proof. destruct x; reflexivity. Qed.

(** The eight networks of [isPrivateIP], parsed. *)
Lemma allRanges_parsed :
  privateRanges ++ cloudMetadata =
  [ mkIPNet [x0a; x00; x00; x00] [xff; x00; x00; x00]
  ; mkIPNet [xac; x10; x00; x00] [xff; xf0; x00; x00]
  ; mkIPNet [xc0; xa8; x00; x00] [xff; xff; x00; x00]
  ; mkIPNet [x7f; x00; x00; x00] [xff; x00; x00; x00]
  ; mkIPNet [xa9; xfe; x00; x00] [xff; xff; x00; x00]
  ; mkIPNet [x00; x00; x00; x00] [xff; x00; x00; x00]
  ; mkIPNet [xa9; xfe; xa9; xfe] [xff; xff; xff; xff]
  ; mkIPNet [xfd; x00; x0e; xc2; x00; x00; x00; x00;
             x00; x00; x00; x00; x00; x00; x02; x54]
            [xff; xff; xff; xff; xff; xff; xff; xff;
             xff; xff; xff; xff; xff; xff; xff; xff] ].
Proof. reflexivity. Qed.

Lemma To4_Some ip x :
  To4 ip = Some x -> exists a b c d, x = [a; b; c; d].
Proof.
  unfold To4, IPv4len, IPv6len.
  destruct (length ip =? 4)%nat eqn:H4.
  - intros [= <-]. apply Nat.eqb_eq in H4.
    destruct ip as [|a [|b [|c [|d [|e ip]]]]]; try discriminate. eauto.
  - destruct (length ip =? 16)%nat eqn:H16; [|discriminate].
    apply Nat.eqb_eq in H16.
    do 17 (destruct ip as [|? ip]; try discriminate).
    cbn [andb]. destruct (_ && _ && _); [|discriminate].
    intros [= <-]. cbn. eauto.
Qed.

Lemma To4_None ip : To4 ip = None -> length ip <> 4%nat.
Proof.
  unfold To4, IPv4len. destruct (length ip =? 4)%nat eqn:H4; [discriminate|].
  intros _. apply Nat.eqb_neq, H4.
Qed.

Lemma existsb_pointwise {A} (f g : A -> bool) l :
  (forall x, f x = g x) -> existsb f l = existsb g l.
Proof. intros Hfg. induction l as [|x l IH]; cbn; [reflexivity|]. now rewrite Hfg, IH. Qed.

Lemma Contains_To4 n ip x :
  To4 ip = Some x -> Contains n ip = Contains n x.
Proof.
  intros Hx. destruct (To4_Some _ _ Hx) as (a & b & c & d & ->).
  unfold Contains. rewrite Hx. reflexivity.
Qed.

(** An IPv4 address is judged on its four bytes, in whichever form it
    comes. *)
Lemma isPrivateIP_To4 ip x : To4 ip = Some x -> isPrivateIP ip = isPrivateIP x.
Proof.
  intros Hx. unfold isPrivateIP.
  rewrite (existsb_pointwise _ (fun block => Contains block x)
             _ (fun n => Contains_To4 n ip x Hx)).
  destruct (To4_Some _ _ Hx) as (a & b & c & d & ->).
  unfold IsLoopback, IsLinkLocalUnicast, IsLinkLocalMulticast, IsPrivate.
  rewrite Hx. reflexivity.
Qed.

(** The four bytes of an IPv4 address. *)
Lemma isPrivateIP_v4 a b c d :
  isPrivateIP [a; b; c; d]
  = in_listed_range [a; b; c; d] || link_local_multicast [a; b; c; d].
Proof.
  unfold isPrivateIP. rewrite allRanges_parsed.
  cbn -[band Byte.eqb].
  rewrite ?band_ff, ?band_00.
  change (band x10 xf0) with x10.
  unfold in_listed_range, link_local_multicast, byte_val. cbn [To4 length Nat.eqb IPv4len].
  destruct a; try reflexivity; destruct b; try reflexivity;
    destruct c; try reflexivity; destruct d; reflexivity.
Qed.

Lemma Contains_None ip n :
  To4 ip = None ->
  Contains n ip =
  match networkNumberAndMask n with
  | None => negb (0 <? length ip)%nat
  | Some (nn, m) =>
      if negb (length ip =? length nn)%nat then false else same_network nn m ip
  end.
Proof. intros H4. unfold Contains. rewrite H4. reflexivity. Qed.

Lemma byte_eqb_sym x y : Byte.eqb x y = Byte.eqb y x.
Proof.
  destruct (Byte.eqb x y) eqn:Hxy.
  - apply byte_dec_bl in Hxy. subst. symmetry. now apply byte_dec_lb.
  - destruct (Byte.eqb y x) eqn:Hyx; [|reflexivity].
    apply byte_dec_bl in Hyx. subst.
    rewrite (byte_dec_lb eq_refl) in Hxy. discriminate.
Qed.

(** Under a mask of ones, the comparison of [Contains] is the equality of
    the bytes. *)
Lemma same_network_ones nn ip :
  length nn = length ip ->
  same_network nn (map (fun _ => xff) nn) ip = bytes_eqb ip nn.
Proof.
  unfold bytes_eqb. intros Hlen. rewrite Hlen, Nat.eqb_refl. cbn [andb].
  revert ip Hlen. induction nn as [|n nn IH]; intros [|i ip] Hlen;
    try discriminate; [reflexivity|].
  cbn [map same_network combine forallb fst snd].
  rewrite !band_ff, (byte_eqb_sym n i).
  destruct (Byte.eqb i n); cbn [negb andb]; [|reflexivity].
  apply IH. now injection Hlen.
Qed.

Lemma networkNumberAndMask_metadata_v6 :
  networkNumberAndMask
    (mkIPNet metadata_v6 [xff; xff; xff; xff; xff; xff; xff; xff;
                          xff; xff; xff; xff; xff; xff; xff; xff])
  = Some (metadata_v6, map (fun _ => xff) metadata_v6).
Proof. reflexivity. Qed.

(** An address that is not an IPv4 address. *)
Lemma isPrivateIP_v6 ip :
  To4 ip = None ->
  isPrivateIP ip = in_listed_range ip || link_local_multicast ip.
Proof.
  intros H4. pose proof (To4_None _ H4) as Hlen4.
  apply Nat.eqb_neq in Hlen4.
  unfold isPrivateIP, in_listed_range, link_local_multicast.
  unfold IsLoopback, IsLinkLocalUnicast, IsLinkLocalMulticast, IsPrivate, Equal.
  rewrite allRanges_parsed. cbn [existsb].
  rewrite !(Contains_None ip _ H4), H4.
  fold metadata_v6. rewrite networkNumberAndMask_metadata_v6.
  cbn [networkNumberAndMask To4 net_IP Mask length Nat.eqb IPv4len IPv6len
       forallb take andb drop byte_at nth Byte.eqb].
  unfold IPv4len, IPv6len. cbn [length IPv6loopback metadata_v6].
  rewrite Hlen4. cbn [negb orb andb].
  destruct (length ip =? 16)%nat eqn:H16; cbn [negb andb orb]; [|reflexivity].
  apply Nat.eqb_eq in H16.
  change [xfd; x00; x0e; xc2; x00; x00; x00; x00;
          x00; x00; x00; x00; x00; x00; x02; x54] with metadata_v6.
  rewrite (same_network_ones metadata_v6 ip) by (symmetry; exact H16).
  set (meta := bytes_eqb ip _).
  set (loop := bytes_eqb ip _).
  unfold byte_val.
  generalize (byte_at ip 0) (byte_at ip 1). clearbody meta loop. clear.
  intros b0 b1.
  destruct meta, loop; cbn [orb andb];
    (destruct b0; try reflexivity; destruct b1; reflexivity).
Qed.

(** [isPrivateIP] accepts the listed ranges and the link-local multicast
    addresses, and nothing else. *)
Lemma isPrivateIP_ranges ip :
  isPrivateIP ip = in_listed_range ip || link_local_multicast ip.
Proof.
  destruct (To4 ip) as [x|] eqn:H4; [|apply isPrivateIP_v6, H4].
  rewrite (isPrivateIP_To4 _ _ H4).
  destruct (To4_Some _ _ H4) as (a & b & c & d & ->).
  rewrite isPrivateIP_v4. unfold in_listed_range, link_local_multicast.
  rewrite H4. reflexivity.
Qed.

End net_facts.

(** ** Properties of the string functions *)

Module strings_facts.
Import strings.

Lemma prefix_empty s : String.prefix "" s = true.
Proof. destruct s; reflexivity. Qed.

Lemma prefix_app p t : String.prefix p (p +:+ t) = true.
Proof.
  induction p as [|c p IH]; simpl; [apply prefix_empty|].
  destruct (ascii_dec c c); [exact IH | congruence].
Qed.

Lemma HasPrefix_app p t : HasPrefix (p +:+ t) p = true.
Proof. apply prefix_app. Qed.

Lemma Contains_here s t : HasPrefix s t = true -> Contains s t = true.
Proof. intros H. destruct s; cbn [Contains]; rewrite H; reflexivity. Qed.

Lemma Contains_app pre t post : Contains (pre +:+ t +:+ post) t = true.
Proof.
  induction pre as [|c pre IH].
  - change ("" +:+ t +:+ post) with (t +:+ post).
    apply Contains_here, HasPrefix_app.
  - change (String c pre +:+ t +:+ post) with (String c (pre +:+ t +:+ post)).
    cbn [Contains]. rewrite IH. apply orb_true_r.
Qed.

Lemma substring_all s : String.substring 0 (String.length s) s = s.
Proof. induction s as [|c s IH]; cbn; [reflexivity|]. now rewrite IH. Qed.

(** [TrimPrefix] by [v] strips one leading [v]. *)
Lemma TrimPrefix_v version : TrimPrefix version "v" = strip_leading_v version.
Proof.
  unfold TrimPrefix, HasPrefix.
  destruct version as [|c s]; [reflexivity|].
  cbn [String.prefix].
  destruct (ascii_dec "v" c) as [<-|Hne].
  - rewrite prefix_empty. cbn [strip_leading_v String.length Nat.sub String.substring].
    rewrite Nat.sub_0_r. apply substring_all.
  - destruct c as [[] [] [] [] [] [] [] []]; try reflexivity. congruence.
Qed.

Lemma segments_nonempty s : segments s <> [].
Proof.
  destruct s as [|c s]; cbn; [discriminate|].
  destruct (filepath.IsPathSeparator c); [discriminate|].
  destruct (segments s); discriminate.
Qed.

(** A prefix without a slash is a prefix of the first segment. *)
Lemma HasPrefix_first_segment p s :
  no_separator p = true ->
  HasPrefix s p = HasPrefix (hd EmptyString (segments s)) p.
Proof.
  unfold HasPrefix. revert s.
  induction p as [|a p IH]; intros s Hp.
  - destruct s, (hd _ _); reflexivity.
  - cbn in Hp. apply andb_true_iff in Hp as [Ha Hp].
    destruct s as [|c s]; [reflexivity|].
    cbn [segments].
    destruct (filepath.IsPathSeparator c) eqn:Hc.
    + cbn. destruct (ascii_dec a c) as [->|]; [|reflexivity].
      rewrite Hc in Ha. discriminate.
    + pose proof (segments_nonempty s) as Hne.
      specialize (IH s Hp).
      destruct (segments s) as [|seg rest]; [congruence|].
      cbn in *. destruct (ascii_dec a c); [exact IH | reflexivity].
Qed.

(** The two tests of [validatePath] on the cleaned path find exactly the
    segments that begin with two dots. *)
Lemma Contains_later_segment s :
  Contains s (String filepath.Separator "..")
  = existsb (fun seg => HasPrefix seg "..") (tl (segments s)).
Proof.
  induction s as [|c s IH]; [reflexivity|].
  cbn [Contains segments].
  pose proof (segments_nonempty s) as Hne.
  unfold HasPrefix at 1. cbn [String.prefix].
  unfold filepath.IsPathSeparator.
  destruct (ascii_dec filepath.Separator c) as [<-|Hc].
  - cbn [Ascii.eqb Bool.eqb filepath.Separator tl].
    change (String.prefix ".." s) with (HasPrefix s "..").
    rewrite (HasPrefix_first_segment ".." s) by reflexivity. rewrite IH.
    destruct (segments s) as [|seg rest]; [congruence|]. reflexivity.
  - assert (Ascii.eqb c filepath.Separator = false) as ->
      by (apply Ascii.eqb_neq; congruence).
    cbn [orb]. rewrite IH.
    destruct (segments s) as [|seg rest]; [congruence|]. reflexivity.
Qed.

Lemma dotdot_tests s :
  HasPrefix s ".." || Contains s (String filepath.Separator "..")
  = has_dotdot_segment s.
Proof.
  unfold has_dotdot_segment.
  rewrite (HasPrefix_first_segment ".." s) by reflexivity.
  rewrite Contains_later_segment.
  pose proof (segments_nonempty s).
  destruct (segments s); [congruence | reflexivity].
Qed.

End strings_facts.

(** ** Properties of the plugin's functions *)

Module plugin_facts.

Lemma in_range_spec lo hi c :
  validName.in_range lo hi c = true
  <-> (nat_of_ascii lo <= nat_of_ascii c <= nat_of_ascii hi)%nat.
Proof.
  unfold validName.in_range.
  rewrite andb_true_iff, !Nat.leb_le. reflexivity.
Qed.

Lemma first_class_spec c : validName.first_class c = true <-> ascii_letter c.
Proof.
  unfold validName.first_class, ascii_letter.
  rewrite orb_true_iff, !in_range_spec. reflexivity.
Qed.

Lemma rest_class_spec c : validName.rest_class c = true <-> name_char c.
Proof.
  unfold validName.rest_class, name_char, ascii_letter.
  rewrite !orb_true_iff, !in_range_spec, !Ascii.eqb_eq.
  change (nat_of_ascii "0") with 48%nat. change (nat_of_ascii "9") with 57%nat.
  change (nat_of_ascii "a") with 97%nat. change (nat_of_ascii "z") with 122%nat.
  change (nat_of_ascii "A") with 65%nat. change (nat_of_ascii "Z") with 90%nat.
  tauto.
Qed.

Lemma star_rest_spec s :
  validName.star_rest s = true <-> Forall name_char (list_ascii_of_string s).
Proof.
  induction s as [|c s IH]; cbn.
  - split; [constructor | reflexivity].
  - rewrite andb_true_iff, rest_class_spec, IH, Forall_cons. reflexivity.
Qed.

(** The regular expression matches the bare registry names. *)
Lemma MatchString_spec s : validName.MatchString s = true <-> registry_name s.
Proof.
  unfold registry_name. destruct s as [|c s]; cbn.
  - split; [discriminate | intros (? & ? & ? & _); discriminate].
  - rewrite andb_true_iff, first_class_spec, star_rest_spec. split.
    + intros [Hc Hs]. eauto.
    + intros (c' & s' & [= -> ->] & Hc & Hs). auto.
Qed.

Lemma nonempty_spec s : nonempty s = true <-> s <> ""%string.
Proof.
  unfold nonempty. rewrite negb_true_iff.
  destruct (String.eqb_spec s ""); split; congruence.
Qed.


Lemma custom_manifest_spec cfg :
  custom_manifest cfg = true <-> non_default cfg FManifestPath.
Proof.
  unfold custom_manifest. cbn [non_default].
  rewrite andb_true_iff, nonempty_spec, negb_true_iff, String.eqb_neq. reflexivity.
Qed.


Lemma Sprintf_d_decimal n : 0 < n -> Sprintf_d n = decimal n.
Proof. destruct n; [lia | reflexivity | lia]. Qed.

Lemma app_if {A} (b : bool) (args l : list A) :
  (if b then args ++ l else args) = args ++ (if b then l else []).
Proof. destruct b; [reflexivity | now rewrite app_nil_r]. Qed.

Lemma flag_words_bool cfg f (b : bool) (P : b = true <-> non_default cfg f) :
  (if b then flag_name f :: flag_value cfg f else []) = flag_words cfg f.
Proof.
  unfold flag_words. destruct b, (decide (non_default cfg f)) as [Hd|Hd];
    try reflexivity; exfalso.
  - apply Hd, P. reflexivity.
  - apply P in Hd. discriminate.
Qed.

(** [buildPublishArgs] builds the reference argument list. *)
Lemma buildPublishArgs_reference cfg : buildPublishArgs cfg = reference_args cfg.
Proof.
  unfold buildPublishArgs, reference_args. cbv zeta.
  rewrite !app_if, <- !app_assoc.
  cbn [flag_order map concat app]. rewrite app_nil_r.
  f_equal.
  rewrite <- (flag_words_bool cfg FToken _ (nonempty_spec _)).
  rewrite <- (flag_words_bool cfg FRegistry _ (nonempty_spec _)).
  rewrite <- (flag_words_bool cfg FAllowDirty (AllowDirty cfg)) by reflexivity.
  rewrite <- (flag_words_bool cfg FNoVerify (NoVerify cfg)) by reflexivity.
  rewrite <- (flag_words_bool cfg FManifestPath _ (custom_manifest_spec cfg)).
  rewrite <- (flag_words_bool cfg FFeatures (0 <? length (Features cfg))%nat)
    by (cbn [non_default]; rewrite Nat.ltb_lt; destruct (Features cfg); cbn;
        split; (lia || congruence)).
  rewrite <- (flag_words_bool cfg FAllFeatures (AllFeatures cfg)) by reflexivity.
  rewrite <- (flag_words_bool cfg FNoDefaultFeatures (NoDefaultFeatures cfg))
    by reflexivity.
  rewrite <- (flag_words_bool cfg FJobs (0 <? Jobs cfg)) by apply Z.ltb_lt.
  cbn [flag_name flag_value]. unfold strings.Join.
  destruct (0 <? Jobs cfg) eqn:Hj; [|reflexivity].
  apply Z.ltb_lt in Hj. now rewrite (Sprintf_d_decimal _ Hj).
Qed.

End plugin_facts.

(** ** The claims about dry runs, tokens and the working directory *)

Lemma publish_dry_run {N : Network} (cfg : Config) (ctx : ReleaseContext) :
  publish cfg ctx true =
  Ret (match validateConfig cfg with
       | Some err => failure ("configuration validation failed: " +:+ err)
       | None => dry_run_response cfg (strings.TrimPrefix (Version ctx) "v")
                   (buildPublishArgs cfg)
       end, None).
Proof. unfold publish. destruct (validateConfig cfg); reflexivity. Qed.

Lemma publish_real {N : Network} (cfg : Config) (ctx : ReleaseContext) :
  validateConfig cfg = None -> Token cfg <> ""%string ->
  publish cfg ctx false =
  let k r := Ret (publish_response cfg (strings.TrimPrefix (Version ctx) "v") r, None) in
  if custom_manifest cfg
  then RunInDir (filepath.Dir (ManifestPath cfg)) "cargo" (buildPublishArgs cfg) k
  else Run "cargo" (buildPublishArgs cfg) k.
Proof.
  intros Hvalid Htoken. unfold publish. rewrite Hvalid.
  apply plugin_facts.nonempty_spec in Htoken. rewrite Htoken. cbn [negb].
  destruct (custom_manifest cfg); [|reflexivity].
  pose proof (filepath_facts.Dir_nonempty (ManifestPath cfg)) as Hdir.
  apply plugin_facts.nonempty_spec in Hdir. rewrite Hdir. reflexivity.
Qed.

Lemma publish_no_token {N : Network} (cfg : Config) (ctx : ReleaseContext) :
  validateConfig cfg = None -> Token cfg = ""%string ->
  publish cfg ctx false =
  Ret (failure "no API token provided: set token in config or CARGO_REGISTRY_TOKEN environment variable", None).
Proof. intros Hvalid Htoken. unfold publish. now rewrite Hvalid, Htoken. Qed.

(** The [post-publish] hook is the one that [Execute] hands to [publish]. *)
Lemma Execute_post_publish {N : Network} {P : ConfigParser}
    (raw : gmap string any) (ctx : ReleaseContext) (dryRun : bool) :
  Execute (mkExecuteRequest HookPostPublish raw ctx dryRun)
  = publish (parseConfig raw) ctx dryRun.
Proof. reflexivity. Qed.

(** C1: for every configuration map and release context, executing the
    [post-publish] hook in dry-run mode returns its response without any
    call of the command executor, neither [Run] nor [RunInDir], whether
    validation fails or succeeds: the program is a plain return, so against
    every executor it makes no call and leaves the executor's state as it
    was. *)
Theorem C1_dry_run_never_calls_executor
    (N : Network) (P : ConfigParser) (raw : gmap string any) (ctx : ReleaseContext) :
  let req := mkExecuteRequest HookPostPublish raw ctx true in
  let cfg := parseConfig raw in
  Execute req =
    Ret (match validateConfig cfg with
         | Some err => failure ("configuration validation failed: " +:+ err)
         | None => dry_run_response cfg (strings.TrimPrefix (Version ctx) "v")
                     (buildPublishArgs cfg)
         end, None)
  /\ forall (S : Type) (E : CommandExecutor S) (s : S),
       calls_made (Execute req) s = 0%nat
       /\ snd (run_with (Execute req) s) = s.
Proof.
  intros req cfg. subst req.
  rewrite Execute_post_publish, publish_dry_run. split; [reflexivity|].
  intros S E s. split; reflexivity.
Qed.

(** C5: for a valid configuration whose resolved token is empty, the
    execution of the [post-publish] hook in real mode returns a failure with
    the missing-credential error and makes no call of the command executor;
    the check belongs to real mode only: the dry run of the same request
    succeeds. *)
Theorem C5_missing_token_fails_before_execution
    (N : Network) (P : ConfigParser) (raw : gmap string any) (ctx : ReleaseContext) :
  validateConfig (parseConfig raw) = None ->
  Token (parseConfig raw) = ""%string ->
  (exists resp,
     Execute (mkExecuteRequest HookPostPublish raw ctx false) = Ret (resp, None)
     /\ Success resp = false
     /\ Error resp = "no API token provided: set token in config or CARGO_REGISTRY_TOKEN environment variable"%string
     /\ forall (S : Type) (E : CommandExecutor S) (s : S),
          calls_made (Execute (mkExecuteRequest HookPostPublish raw ctx false)) s = 0%nat)
  /\ (exists resp,
        Execute (mkExecuteRequest HookPostPublish raw ctx true) = Ret (resp, None)
        /\ Success resp = true /\ Error resp = ""%string).
Proof.
  intros Hvalid Htoken. rewrite !Execute_post_publish.
  rewrite (publish_no_token _ ctx Hvalid Htoken), publish_dry_run, Hvalid.
  split; eexists; repeat split; reflexivity.
Qed.

Lemma C5_missing_token_witness :
  (exists resp,
     Execute (N := go_network no_dns) (P := sdk_parser ∅)
       (mkExecuteRequest HookPostPublish ∅ (mkReleaseContext "v1.0.0" "" "") false)
     = Ret (resp, None)
     /\ Success resp = false
     /\ Error resp = "no API token provided: set token in config or CARGO_REGISTRY_TOKEN environment variable"%string
     /\ forall (S : Type) (E : CommandExecutor S) (s : S),
          calls_made
            (Execute (N := go_network no_dns) (P := sdk_parser ∅)
               (mkExecuteRequest HookPostPublish ∅ (mkReleaseContext "v1.0.0" "" "") false))
            s = 0%nat)
  /\ (exists resp,
        Execute (N := go_network no_dns) (P := sdk_parser ∅)
          (mkExecuteRequest HookPostPublish ∅ (mkReleaseContext "v1.0.0" "" "") true)
        = Ret (resp, None)
        /\ Success resp = true /\ Error resp = ""%string).
Proof.
  apply (C5_missing_token_fails_before_execution (go_network no_dns) (sdk_parser ∅) ∅
           (mkReleaseContext "v1.0.0" "" "")); reflexivity.
Defined.

(** C6: for every configuration, [buildPublishArgs] equals the reference
    sequence: [publish], then in the fixed order the token, registry,
    allow-dirty, no-verify, manifest-path, features, all-features,
    no-default-features and jobs flags, each with its value, where a flag
    contributes its words if and only if its field is not at its default. *)
Theorem C6_buildPublishArgs_reference (cfg : Config) :
  buildPublishArgs cfg = reference_args cfg
  /\ reference_args cfg =
       "publish"%string ::
       flag_words cfg FToken ++ flag_words cfg FRegistry
       ++ flag_words cfg FAllowDirty ++ flag_words cfg FNoVerify
       ++ flag_words cfg FManifestPath ++ flag_words cfg FFeatures
       ++ flag_words cfg FAllFeatures ++ flag_words cfg FNoDefaultFeatures
       ++ flag_words cfg FJobs
  /\ forall f : flag,
       (non_default cfg f -> flag_words cfg f = flag_name f :: flag_value cfg f)
       /\ (~ non_default cfg f -> flag_words cfg f = [])
       /\ (In (flag_name f) (flag_words cfg f) <-> non_default cfg f)
       /\ (non_default cfg f -> In (flag_name f) (buildPublishArgs cfg)).
Proof.
  split; [apply plugin_facts.buildPublishArgs_reference|].
  split.
  - unfold reference_args. cbn [flag_order map concat]. now rewrite app_nil_r.
  - intros f.
    assert (Hwords : non_default cfg f -> In (flag_name f) (buildPublishArgs cfg)).
    { intros Hd. rewrite plugin_facts.buildPublishArgs_reference.
      unfold reference_args. right. apply in_concat.
      exists (flag_words cfg f). split.
      - apply in_map. destruct f; cbn; tauto.
      - unfold flag_words. destruct (decide _); [now left | contradiction]. }
    unfold flag_words.
    destruct (decide (non_default cfg f)) as [Hd|Hd].
    + split; [reflexivity|]. split; [tauto|].
      split; [split; [auto | intros _; now left] | exact Hwords].
    + split; [tauto|]. split; [reflexivity|].
      split; [split; [intros [] | tauto] | exact Hwords].
Qed.



(** C8: the version that a response reports, in its message and in its
    outputs, is the version of the release context without one leading [v];
    [v1.2.3] is reported as [1.2.3], and [1.2.3] as it is.  The dry run of a
    valid configuration reports it; a response that reports no version is a
    failure, with no message and no outputs. *)
Theorem C8_version_normalized
    (N : Network) (cfg : Config) (ctx : ReleaseContext) (dryRun : bool)
    (S : Type) (E : CommandExecutor S) (s : S) :
  let resp := fst (fst (run_with (publish cfg ctx dryRun) s)) in
  let v := strip_leading_v (Version ctx) in
  ((Success resp = true
    /\ Outputs resp !! "version" = Some (AString v)
    /\ exists verb : string,
         Message resp = verb +:+ " crate version " +:+ v +:+ " to " +:+ getRegistryName cfg)
   \/ (Success resp = false /\ Message resp = ""%string /\ Outputs resp = ∅))
  /\ (validateConfig cfg = None -> dryRun = true -> Success resp = true)
  /\ strip_leading_v "v1.2.3" = "1.2.3"%string
  /\ strip_leading_v "1.2.3" = "1.2.3"%string
  /\ strip_leading_v "vv1.2.3" = "v1.2.3"%string
  /\ Message (fst (fst (run_with
        (publish (N := go_network no_dns) (sample_config "Cargo.toml")
           (mkReleaseContext "v1.2.3" "" "") true) (mkMock None None []))))
     = "Would publish crate version 1.2.3 to crates.io"%string
  /\ Message (fst (fst (run_with
        (publish (N := go_network no_dns) (sample_config "Cargo.toml")
           (mkReleaseContext "v1.2.3" "" "") false) (mkMock None None []))))
     = "Published crate version 1.2.3 to crates.io"%string
  /\ Message (fst (fst (run_with
        (publish (N := go_network no_dns) (sample_config "Cargo.toml")
           (mkReleaseContext "1.2.3" "" "") false) (mkMock None None []))))
     = "Published crate version 1.2.3 to crates.io"%string.
Proof.
  intros resp v.
  split; [|split; [|repeat split; reflexivity]].
  - subst resp v. rewrite <- strings_facts.TrimPrefix_v.
    unfold publish.
    destruct (validateConfig cfg); [right; repeat split|].
    destruct dryRun.
    + left. cbn [run_with fst]. split; [reflexivity|]. split; [reflexivity|].
      exists "Would publish"%string. reflexivity.
    + destruct (negb (nonempty (Token cfg))); [right; repeat split|].
      destruct (nonempty _); cbn [run_with].
      * destruct (exec_RunInDir _ _ _ s) as [[output [err|]] s'];
          cbn [run_with fst publish_response].
        -- right. repeat split.
        -- left. split; [reflexivity|]. split; [reflexivity|].
           exists "Published"%string. reflexivity.
      * destruct (exec_Run _ _ s) as [[output [err|]] s'];
          cbn [run_with fst publish_response].
        -- right. repeat split.
        -- left. split; [reflexivity|]. split; [reflexivity|].
           exists "Published"%string. reflexivity.
  - intros Hvalid ->. subst resp. now rewrite publish_dry_run, Hvalid.
Qed.

Lemma Join_cons (x y : string) (l : list string) (sep : string) :
  strings.Join (x :: y :: l) sep = x +:+ sep +:+ strings.Join (y :: l) sep.
Proof. reflexivity. Qed.

Lemma append_empty_r (t : string) : t +:+ "" = t.
Proof.
  induction t as [|c t IH]; [reflexivity|].
  change (String c t +:+ "") with (String c (t +:+ "")). now rewrite IH.
Qed.

(** C9: for every valid configuration, the [command] output of the dry run
    is the text [cargo publish ] followed by the arguments of
    [buildPublishArgs] joined by spaces; as the arguments begin with
    [publish], the text begins with [cargo publish publish], and with a
    non-empty token it holds the token verbatim, after the [--token]
    flag. *)
Theorem C9_dry_run_command
    (N : Network) (cfg : Config) (ctx : ReleaseContext) :
  validateConfig cfg = None ->
  exists (resp : ExecuteResponse) (cmd : string),
    publish cfg ctx true = Ret (resp, None)
    /\ Outputs resp !! "command" = Some (AString cmd)
    /\ cmd = "cargo publish " +:+ strings.Join (buildPublishArgs cfg) " "
    /\ strings.HasPrefix cmd "cargo publish publish" = true
    /\ (Token cfg <> ""%string ->
        strings.Contains cmd (Token cfg) = true
        /\ exists rest : string,
             cmd = "cargo publish publish --token " +:+ Token cfg +:+ rest).
Proof.
  intros Hvalid. rewrite publish_dry_run, Hvalid.
  eexists. eexists. split; [reflexivity|]. split; [reflexivity|].
  split; [reflexivity|].
  rewrite plugin_facts.buildPublishArgs_reference.
  unfold reference_args. cbn [flag_order map concat].
  split.
  - destruct (flag_words cfg FToken ++ _) as [|w ws].
    + reflexivity.
    + rewrite Join_cons.
      change ("cargo publish " +:+ "publish" +:+ " " +:+ strings.Join (w :: ws) " ")
        with ("cargo publish publish" +:+ " " +:+ strings.Join (w :: ws) " ").
      apply strings_facts.HasPrefix_app.
  - intros Htoken.
    assert (Hwords : flag_words cfg FToken = ["--token"%string; Token cfg])
      by (unfold flag_words; destruct (decide _) as [|Hn];
          [reflexivity | cbn in Hn; tauto]).
    rewrite Hwords. cbn [app].
    set (tail := flag_words cfg FRegistry ++ _).
    assert (Hcmd : exists rest : string,
      "cargo publish " +:+ strings.Join ("publish"%string :: "--token"%string :: Token cfg :: tail) " "
      = "cargo publish publish --token " +:+ Token cfg +:+ rest).
    { rewrite !Join_cons. destruct tail as [|w ws].
      - exists ""%string. cbn [strings.Join String.concat].
        generalize (Token cfg). intros t.
        change ("cargo publish " +:+ "publish" +:+ " " +:+ "--token" +:+ " " +:+ t)
          with ("cargo publish publish --token " +:+ t).
        now rewrite append_empty_r.
      - rewrite Join_cons.
        exists (" " +:+ strings.Join (w :: ws) " "). reflexivity. }
    destruct Hcmd as [rest Hrest]. split; [|eauto].
    rewrite Hrest. apply strings_facts.Contains_app.
Qed.

Lemma C9_dry_run_command_witness :
  exists (resp : ExecuteResponse) (cmd : string),
    publish (N := go_network no_dns) (sample_config "Cargo.toml")
      (mkReleaseContext "v1.0.0" "" "") true = Ret (resp, None)
    /\ Outputs resp !! "command" = Some (AString cmd)
    /\ cmd = "cargo publish "
             +:+ strings.Join (buildPublishArgs (sample_config "Cargo.toml")) " "
    /\ strings.HasPrefix cmd "cargo publish publish" = true
    /\ (Token (sample_config "Cargo.toml") <> ""%string ->
        strings.Contains cmd (Token (sample_config "Cargo.toml")) = true
        /\ exists rest : string,
             cmd = "cargo publish publish --token "
                   +:+ Token (sample_config "Cargo.toml") +:+ rest).
Proof.
  apply (C9_dry_run_command (go_network no_dns) (sample_config "Cargo.toml")
           (mkReleaseContext "v1.0.0" "" "")).
  reflexivity.
Defined.

(** ** The claims about the registry and the manifest path *)

Lemma loopback_host_spec (host : string) :
  String.eqb host "localhost" || String.eqb host "127.0.0.1" || String.eqb host "::1" = true
  <-> loopback_host host.
Proof.
  unfold loopback_host. rewrite !orb_true_iff, !String.eqb_eq. tauto.
Qed.

Lemma secure_scheme_spec (scheme : string) :
  String.eqb scheme "https" || String.eqb scheme "sparse+https" = true
  <-> secure_scheme scheme.
Proof.
  unfold secure_scheme. rewrite !orb_true_iff, !String.eqb_eq. tauto.
Qed.

(** The outcome of [validateRegistryURL] on a text with a scheme separator
    that parses. *)
Lemma validateRegistryURL_parsed {N : Network} (s : string) (u : url.URL) :
  strings.Contains s "://" = true -> url_Parse s = Ok u ->
  validateRegistryURL s =
  let host := url.Hostname u in
  let isLocalhost := String.eqb host "localhost" || String.eqb host "127.0.0.1"
                     || String.eqb host "::1" in
  if isLocalhost then None
  else if negb (String.eqb (url.Scheme u) "https" || String.eqb (url.Scheme u) "sparse+https")
  then Some ("only HTTPS URLs are allowed (got " +:+ url.Scheme u +:+ ")")
  else match net_LookupIP host with
       | Err _ => None
       | Ok ips =>
           if existsb isPrivateIP ips
           then Some "URLs pointing to private networks are not allowed"%string
           else None
       end.
Proof.
  intros Hsep Hparse. unfold validateRegistryURL. rewrite Hsep, Hparse.
  cbv zeta. cbn [negb].
  destruct (String.eqb (url.Hostname u) "localhost" || _ || _);
    destruct (String.eqb (url.Scheme u) "https");
    destruct (String.eqb (url.Scheme u) "sparse+https"); reflexivity.
Qed.

Lemma validateRegistryURL_loopback {N : Network} (s : string) (u : url.URL) :
  strings.Contains s "://" = true -> url_Parse s = Ok u ->
  loopback_host (url.Hostname u) -> validateRegistryURL s = None.
Proof.
  intros Hsep Hparse Hloop. rewrite (validateRegistryURL_parsed s u Hsep Hparse).
  cbv zeta. apply loopback_host_spec in Hloop. now rewrite Hloop.
Qed.

Lemma validateRegistryURL_remote {N : Network} (s : string) (u : url.URL) :
  strings.Contains s "://" = true -> url_Parse s = Ok u ->
  ~ loopback_host (url.Hostname u) -> secure_scheme (url.Scheme u) ->
  validateRegistryURL s =
  match net_LookupIP (url.Hostname u) with
  | Err _ => None
  | Ok ips =>
      if existsb isPrivateIP ips
      then Some "URLs pointing to private networks are not allowed"%string
      else None
  end.
Proof.
  intros Hsep Hparse Hloop Hscheme.
  rewrite (validateRegistryURL_parsed s u Hsep Hparse). cbv zeta.
  apply secure_scheme_spec in Hscheme. rewrite Hscheme. cbn [negb].
  destruct (_ || _ || _) eqn:Hl; [|reflexivity].
  apply loopback_host_spec in Hl. contradiction.
Qed.

(** C2, as the code has it: a text without scheme separator is accepted if
    and only if it is a bare registry name; a text with the separator that
    fails to parse is rejected; one that parses is rejected when its scheme
    is neither [https] nor [sparse+https] and its host is not a loopback
    form, and accepted whatever its scheme when its host is [localhost],
    [127.0.0.1] or [::1].  The samples [my-registry],
    [http://localhost:8080/index] and [http://127.0.0.1:8080/index] are
    accepted and [http://example.com] and [my_bad!name] rejected whatever
    the resolver says; [https://host/path] and [sparse+https://host/index]
    are accepted when the resolution of [host] fails or returns no private
    address. *)
Theorem C2_registry_name_and_scheme :
  (forall (N : Network) (s : string),
     strings.Contains s "://" = false ->
     (validateRegistryURL s = None <-> registry_name s))
  /\ (forall (N : Network) (s msg : string),
        strings.Contains s "://" = true -> url_Parse s = Err msg ->
        validateRegistryURL s <> None)
  /\ (forall (N : Network) (s : string) (u : url.URL),
        strings.Contains s "://" = true -> url_Parse s = Ok u ->
        ~ secure_scheme (url.Scheme u) -> ~ loopback_host (url.Hostname u) ->
        validateRegistryURL s <> None)
  /\ (forall (N : Network) (s : string) (u : url.URL),
        strings.Contains s "://" = true -> url_Parse s = Ok u ->
        loopback_host (url.Hostname u) ->
        validateRegistryURL s = None)
  /\ (forall lookup : string -> result (list net.IP),
        validateRegistryURL (N := go_network lookup) "my-registry" = None
        /\ validateRegistryURL (N := go_network lookup) "http://localhost:8080/index" = None
        /\ validateRegistryURL (N := go_network lookup) "http://127.0.0.1:8080/index" = None
        /\ validateRegistryURL (N := go_network lookup) "http://example.com" <> None
        /\ validateRegistryURL (N := go_network lookup) "my_bad!name" <> None)
  /\ (forall lookup : string -> result (list net.IP),
        match lookup "host" with
        | Err _ => True
        | Ok ips => existsb isPrivateIP ips = false
        end ->
        validateRegistryURL (N := go_network lookup) "https://host/path" = None
        /\ validateRegistryURL (N := go_network lookup) "sparse+https://host/index" = None).
Proof.
  split; [|split; [|split; [|split; [|split]]]].
  - intros N s Hsep. unfold validateRegistryURL. rewrite Hsep. cbn [negb].
    rewrite <- plugin_facts.MatchString_spec.
    destruct (validName.MatchString s); cbn [negb]; split; congruence.
  - intros N s msg Hsep Hparse. unfold validateRegistryURL.
    rewrite Hsep, Hparse. discriminate.
  - intros N s u Hsep Hparse Hscheme Hloop.
    rewrite (validateRegistryURL_parsed s u Hsep Hparse). cbv zeta.
    destruct (_ || _ || _) eqn:Hl; [apply loopback_host_spec in Hl; contradiction|].
    destruct (String.eqb (url.Scheme u) "https" || _) eqn:Hs;
      [apply secure_scheme_spec in Hs; contradiction|].
    discriminate.
  - intros N s u. apply validateRegistryURL_loopback.
  - intros lookup. repeat split; try reflexivity; discriminate.
  - intros lookup Hhost.
    assert (Hnot : ~ loopback_host "host")
      by (intros [H|[H|H]]; discriminate H).
    split.
    + rewrite (validateRegistryURL_remote (N := go_network lookup)
                 "https://host/path" (url.mkURL "https" "host"));
        [|reflexivity|reflexivity|exact Hnot|left; reflexivity].
      change (net_LookupIP (url.Hostname (url.mkURL "https" "host")))
        with (lookup "host").
      destruct (lookup "host") as [ips|]; [rewrite Hhost|]; reflexivity.
    + rewrite (validateRegistryURL_remote (N := go_network lookup)
                 "sparse+https://host/index" (url.mkURL "sparse+https" "host"));
        [|reflexivity|reflexivity|exact Hnot|right; reflexivity].
      change (net_LookupIP (url.Hostname (url.mkURL "sparse+https" "host")))
        with (lookup "host").
      destruct (lookup "host") as [ips|]; [rewrite Hhost|]; reflexivity.
Qed.

(** C2 as the claim states it fails: [https://host/path] is rejected when
    [host] resolves to a private address. *)
Lemma C2_counterexample :
  exists lookup : string -> result (list net.IP),
    validateRegistryURL (N := go_network lookup) "https://host/path" <> None.
Proof. exists (fun _ => Ok [[x0a; x00; x00; x01]]). discriminate. Qed.

(** C3, as the code has it: for a registry URL that parses, with an allowed
    scheme and a host that is not a loopback form, a failed resolution of the
    host accepts the URL, and a resolution that returns addresses rejects it
    if and only if one of them lies in a listed range (10.0.0.0/8,
    172.16.0.0/12, 192.168.0.0/16, 127.0.0.0/8, 169.254.0.0/16, 0.0.0.0/8,
    the IPv6 loopback, link-local and unique-local addresses, the metadata
    addresses 169.254.169.254 and fd00:ec2::254) or is a link-local multicast
    address (224.0.0.0/24, or IPv6 ffx2::/16).  With a loopback host the
    URL is accepted whatever the resolver would answer. *)
Theorem C3_resolution_check (N : Network) (s : string) (u : url.URL) :
  strings.Contains s "://" = true -> url_Parse s = Ok u ->
  (~ loopback_host (url.Hostname u) -> secure_scheme (url.Scheme u) ->
     (forall msg, net_LookupIP (url.Hostname u) = Err msg ->
        validateRegistryURL s = None)
     /\ (forall ips, net_LookupIP (url.Hostname u) = Ok ips ->
           (validateRegistryURL s <> None
            <-> exists ip, In ip ips
                  /\ (in_listed_range ip = true \/ link_local_multicast ip = true))))
  /\ (loopback_host (url.Hostname u) -> validateRegistryURL s = None).
Proof.
  intros Hsep Hparse. split; [|apply validateRegistryURL_loopback; assumption].
  intros Hloop Hscheme.
  rewrite (validateRegistryURL_remote s u Hsep Hparse Hloop Hscheme). split.
  - intros msg ->. reflexivity.
  - intros ips ->.
    destruct (existsb isPrivateIP ips) eqn:Hex.
    + split; [|discriminate]. intros _.
      apply existsb_exists in Hex as (ip & Hin & Hip). exists ip. split; [exact Hin|].
      rewrite net_facts.isPrivateIP_ranges in Hip. now apply orb_true_iff.
    + split; [congruence|]. intros (ip & Hin & Hip). exfalso.
      assert (existsb isPrivateIP ips = true); [|congruence].
      apply existsb_exists. exists ip. split; [exact Hin|].
      rewrite net_facts.isPrivateIP_ranges. now apply orb_true_iff.
Qed.

Lemma C3_resolution_check_witness :
  validateRegistryURL (N := go_network sample_lookup) "https://example.com" <> None
  <-> exists ip, In ip [[x08; x08; x08; x08]; [x0a; x00; x00; x01]]
        /\ (in_listed_range ip = true \/ link_local_multicast ip = true).
Proof.
  refine (proj2 (proj1 (C3_resolution_check (go_network sample_lookup)
                          "https://example.com" (url.mkURL "https" "example.com")
                          _ _) _ _) _ _).
  - reflexivity.
  - reflexivity.
  - unfold loopback_host. cbn. intros [H|[H|H]]; discriminate H.
  - left. reflexivity.
  - reflexivity.
Defined.

(** C3 as the claim states it fails: the address 224.0.0.1 lies in none of
    the listed ranges, and a host that resolves to it is rejected. *)
Lemma C3_counterexample :
  in_listed_range [xe0; x00; x00; x01] = false
  /\ validateRegistryURL (N := go_network (fun _ => Ok [[xe0; x00; x00; x01]]))
       "https://example.com" <> None.
Proof. split; [reflexivity | discriminate]. Qed.

Lemma parent_segment_dotdot (path : string) :
  has_parent_segment path = true -> has_dotdot_segment path = true.
Proof.
  unfold has_parent_segment, has_dotdot_segment.
  rewrite !existsb_exists. intros (seg & Hin & Hseg).
  exists seg. split; [exact Hin|]. apply String.eqb_eq in Hseg. now subst.
Qed.

(** C4, as the code has it: [validatePath] accepts the empty path and
    [a/b/c]; it rejects a non-empty path if and only if the path is absolute
    or its cleaned form has a segment that begins with two dots, which
    includes every parent-directory segment, and also a name such as
    [..foo]; it rejects [/etc/passwd], [../x] and [a/../../x]. *)
Theorem C4_validatePath :
  validatePath "" = None
  /\ validatePath "a/b/c" = None
  /\ (forall path : string, path <> ""%string ->
        (validatePath path <> None
         <-> filepath.IsAbs path = true
             \/ has_dotdot_segment (filepath.Clean path) = true))
  /\ (forall path : string, path <> ""%string ->
        has_parent_segment (filepath.Clean path) = true ->
        validatePath path <> None)
  /\ validatePath "/etc/passwd" <> None
  /\ validatePath "../x" <> None
  /\ validatePath "a/../../x" <> None.
Proof.
  assert (Hiff : forall path : string, path <> ""%string ->
            (validatePath path <> None
             <-> filepath.IsAbs path = true
                 \/ has_dotdot_segment (filepath.Clean path) = true)).
  { intros path Hne. unfold validatePath.
    apply String.eqb_neq in Hne. rewrite Hne.
    rewrite filepath_facts.IsAbs_Clean, strings_facts.dotdot_tests.
    destruct (filepath.IsAbs path), (has_dotdot_segment _);
      (split;
       [ intros H; first [now left | now right | exfalso; now apply H]
       | intros [H|H]; first [discriminate | discriminate H] ]). }
  split; [reflexivity|]. split; [reflexivity|]. split; [exact Hiff|].
  split.
  - intros path Hne Hseg. apply Hiff; [exact Hne|].
    right. apply parent_segment_dotdot, Hseg.
  - repeat split; discriminate.
Qed.

(** C4 as the claim states it fails: [..foo] is relative and its cleaned
    form has no parent-directory segment, yet [validatePath] rejects it. *)
Lemma C4_counterexample :
  filepath.IsAbs "..foo" = false
  /\ has_parent_segment (filepath.Clean "..foo") = false
  /\ validatePath "..foo" <> None.
Proof. split; [reflexivity|]. split; [reflexivity | discriminate]. Qed.

(** ** The description of the plugin *)


Example GetInfo_schema :
  String.length (ConfigSchema GetInfo) = 992%nat
  /\ strings.Contains (ConfigSchema GetInfo)
       (String (ascii_of_nat 34) "manifest_path" +:+ String (ascii_of_nat 34) ": {") = true.
Proof. split; reflexivity. Qed.

(** ** Further properties of the plugin *)

Lemma append_assoc (a b c : string) : (a +:+ b) +:+ c = a +:+ b +:+ c.
Proof.
  induction a as [|x a IH]; [reflexivity|].
  change (String x (a +:+ b) +:+ c = String x (a +:+ b +:+ c)).
  change (String x ((a +:+ b) +:+ c) = String x (a +:+ b +:+ c)).
  now rewrite IH.
Qed.

(** [Execute] hands a request to [publish] exactly when its hook is one of
    the hooks that [GetInfo] declares; any other hook is acknowledged with a
    success and a message that names it, whatever the configuration and the
    mode: the configuration is not validated and the executor not called. *)
Theorem Execute_handles_declared_hooks
    (N : Network) (P : ConfigParser) (req : ExecuteRequest) :
  (In (req_Hook req) (Hooks GetInfo) ->
     Execute req = publish (parseConfig (req_Config req)) (req_Context req) (DryRun req))
  /\ (~ In (req_Hook req) (Hooks GetInfo) ->
        Execute req
        = Ret ({| Success := true;
                  Message := "Hook " +:+ req_Hook req +:+ " not handled";
                  Error := ""; Outputs := ∅ |}, None)
        /\ forall (S : Type) (E : CommandExecutor S) (s : S),
             calls_made (Execute req) s = 0%nat).
Proof.
  unfold Execute. cbn [GetInfo Hooks In]. split.
  - intros [<-|[]]. reflexivity.
  - intros Hhook.
    destruct (String.eqb_spec (req_Hook req) HookPostPublish) as [Heq|_].
    + exfalso. apply Hhook. left. now symmetry.
    + split; [reflexivity | intros; reflexivity].
Qed.

(** [publish] calls the executor at most once, and exactly once when the
    configuration is valid, the mode is real and the token is present; the
    call runs [cargo] with the arguments of [buildPublishArgs], and a failed
    call is not retried. *)
Theorem publish_calls_executor_at_most_once
    (N : Network) (cfg : Config) (ctx : ReleaseContext) (dryRun : bool) :
  (forall (S : Type) (E : CommandExecutor S) (s : S),
     (calls_made (publish cfg ctx dryRun) s <= 1)%nat
     /\ (calls_made (publish cfg ctx dryRun) s = 1%nat
         <-> validateConfig cfg = None /\ dryRun = false /\ Token cfg <> ""%string))
  /\ forall m : MockCommandExecutor,
       exists new : list ExecutorCall,
         calls (snd (run_with (publish cfg ctx dryRun) m)) = calls m ++ new
         /\ length new = calls_made (publish cfg ctx dryRun) m
         /\ forall c, In c new ->
              call_Name c = "cargo"%string /\ Args c = buildPublishArgs cfg
              /\ hd ""%string (Args c) = "publish"%string.
Proof.
  destruct dryRun.
  - rewrite publish_dry_run. split.
    + intros S E s. cbn. split; [lia|]. split; [discriminate | intros (_ & [=] & _)].
    + intros m. exists []. cbn. rewrite app_nil_r.
      split; [reflexivity|]. split; [reflexivity|]. intros c [].
  - destruct (validateConfig cfg) as [err|] eqn:Hvalid.
    { unfold publish. rewrite Hvalid. split.
      - intros S E s. cbn. split; [lia|]. split; [discriminate | intros ([=] & _)].
      - intros m. exists []. cbn. rewrite app_nil_r.
      split; [reflexivity|]. split; [reflexivity|]. intros c []. }
    destruct (String.eqb_spec (Token cfg) "") as [Htoken|Htoken].
    { rewrite (publish_no_token cfg ctx Hvalid Htoken). split.
      - intros S E s. cbn. split; [lia|]. split; [discriminate | tauto].
      - intros m. exists []. cbn. rewrite app_nil_r.
      split; [reflexivity|]. split; [reflexivity|]. intros c []. }
    pose proof (publish_real cfg ctx Hvalid Htoken) as Hreal. cbv zeta in Hreal.
    rewrite Hreal. split.
    + intros S E s. destruct (custom_manifest cfg); cbn [calls_made].
      * destruct (exec_RunInDir _ _ _ s) as [r s']. cbn. split; [lia | tauto].
      * destruct (exec_Run _ _ s) as [r s']. cbn. split; [lia | tauto].
    + intros m.
      assert (Hhd : hd ""%string (buildPublishArgs cfg) = "publish"%string)
        by (rewrite plugin_facts.buildPublishArgs_reference; reflexivity).
      destruct (custom_manifest cfg); cbn [run_with calls_made mock_executor exec_Run exec_RunInDir snd calls];
        (eexists; split; [reflexivity|]; split; [reflexivity|]);
        intros call [<-|[]]; cbn; auto.
Qed.

(** In a real run with a valid configuration and a token, the response is
    the outcome of the one call: with no error it is a success whose
    [output] is the captured output; with an error it is a failure without
    outputs, whose text holds the error and the captured output. *)
Theorem publish_reports_executor_outcome
    (N : Network) (cfg : Config) (ctx : ReleaseContext)
    (S : Type) (E : CommandExecutor S) (s : S) :
  validateConfig cfg = None -> Token cfg <> ""%string ->
  let outcome :=
    if custom_manifest cfg
    then exec_RunInDir (filepath.Dir (ManifestPath cfg)) "cargo" (buildPublishArgs cfg) s
    else exec_Run "cargo" (buildPublishArgs cfg) s in
  let output := fst (fst outcome) in
  let resp := fst (fst (run_with (publish cfg ctx false) s)) in
  snd (run_with (publish cfg ctx false) s) = snd outcome
  /\ match snd (fst outcome) with
     | None =>
         Success resp = true /\ Error resp = ""%string
         /\ Outputs resp !! "output" = Some (AString output)
         /\ Outputs resp !! "registry" = Some (AString (Registry cfg))
     | Some err =>
         Success resp = false /\ Outputs resp = ∅
         /\ Error resp = "cargo publish failed: " +:+ err
                         +:+ String (ascii_of_nat 10) "Output: " +:+ output
         /\ strings.Contains (Error resp) err = true
         /\ strings.Contains (Error resp) output = true
     end.
Proof.
  intros Hvalid Htoken outcome output resp. subst outcome output resp.
  pose proof (publish_real cfg ctx Hvalid Htoken) as Hreal. cbv zeta in Hreal.
  rewrite Hreal.
  assert (Hshape : forall err output : string,
            strings.Contains ("cargo publish failed: " +:+ err
                              +:+ String (ascii_of_nat 10) "Output: " +:+ output) err = true
            /\ strings.Contains ("cargo publish failed: " +:+ err
                              +:+ String (ascii_of_nat 10) "Output: " +:+ output) output = true).
  { intros err output. split.
    - apply strings_facts.Contains_app.
    - pose proof (strings_facts.Contains_app
                    ("cargo publish failed: " +:+ err +:+ String (ascii_of_nat 10) "Output: ")
                    output "") as Hc.
      now rewrite append_empty_r, !append_assoc in Hc. }
  destruct (custom_manifest cfg); cbn [run_with].
  - destruct (exec_RunInDir _ _ _ s) as [[output [err|]] s'];
      cbn [fst snd publish_response failure Success Error Outputs].
    + split; [reflexivity|]. destruct (Hshape err output). repeat split; assumption.
    + repeat split.
  - destruct (exec_Run _ _ s) as [[output [err|]] s'];
      cbn [fst snd publish_response failure Success Error Outputs].
    + split; [reflexivity|]. destruct (Hshape err output). repeat split; assumption.
    + repeat split.
Qed.

Lemma publish_reports_executor_outcome_witness :
  Error (fst (fst (run_with
                     (publish (N := go_network no_dns) (sample_config "Cargo.toml")
                        (mkReleaseContext "v1.0.0" "" "") false)
                     (mkMock (Some (fun _ _ => ("error: crate already uploaded", Some "exit status 101")))
                        None []))))
  = ("cargo publish failed: exit status 101" +:+ String (ascii_of_nat 10)
       "Output: error: crate already uploaded")%string.
Proof.
  refine (proj1 (proj2 (proj2 (proj2
           (publish_reports_executor_outcome (go_network no_dns)
              (sample_config "Cargo.toml") (mkReleaseContext "v1.0.0" "" "")
              MockCommandExecutor mock_executor
              (mkMock (Some (fun _ _ => ("error: crate already uploaded"%string,
                                         Some "exit status 101"%string)))
                 None []) _ _))))).
  - reflexivity.
  - discriminate.
Defined.

(** [validateConfig] checks the manifest path first and consults the
    network (URL parser and resolver) only for a registry with a scheme
    separator: with a bad manifest path, or with a registry that is empty or
    a bare name, its verdict is the same under every network. *)
Theorem validateConfig_offline
    (N N' : Network) (cfg : Config) :
  validatePath (ManifestPath cfg) <> None
  \/ strings.Contains (Registry cfg) "://" = false ->
  validateConfig (N := N) cfg = validateConfig (N := N') cfg
  /\ (forall err, validatePath (ManifestPath cfg) = Some err ->
        validateConfig (N := N) cfg = Some ("invalid manifest_path: " +:+ err)).
Proof.
  intros Hoff. unfold validateConfig. split.
  - destruct (validatePath (ManifestPath cfg)) as [err|]; [reflexivity|].
    destruct Hoff as [Hpath|Hsep]; [congruence|].
    unfold validateRegistryURL. rewrite Hsep. reflexivity.
  - intros err ->. reflexivity.
Qed.

Lemma validateConfig_offline_witness :
  validateConfig (N := go_network no_dns) (sample_config "/etc/passwd")
  = validateConfig (N := go_network sample_lookup) (sample_config "/etc/passwd")
  /\ (forall err, validatePath (ManifestPath (sample_config "/etc/passwd")) = Some err ->
        validateConfig (N := go_network no_dns) (sample_config "/etc/passwd")
        = Some ("invalid manifest_path: " +:+ err)).
Proof.
  apply (validateConfig_offline (go_network no_dns) (go_network sample_lookup)
           (sample_config "/etc/passwd")).
  left. discriminate.
Defined.

Lemma Contains_first_byte (s : string) (c : ascii) (t : string) :
  strings.Contains s (String c t) = true -> In c (list_ascii_of_string s).
Proof.
  induction s as [|a s IH]; cbn [strings.Contains list_ascii_of_string].
  - unfold strings.HasPrefix. cbn. discriminate.
  - intros H. apply orb_true_iff in H as [H|H]; [|right; auto].
    unfold strings.HasPrefix in H. cbn [String.prefix] in H.
    destruct (ascii_dec c a) as [->|]; [now left | discriminate].
Qed.

Lemma name_char_not_colon (c : ascii) : name_char c -> c <> ":"%char.
Proof.
  intros Hc ->. unfold name_char, ascii_letter in Hc.
  change (nat_of_ascii ":") with 58%nat in Hc.
  destruct Hc as [[H|H]|[H|[H|H]]]; try lia; discriminate H.
Qed.

(** A bare registry name has no scheme separator, so [validateRegistryURL]
    accepts every text of the pattern, without parsing or resolving
    anything. *)
Theorem validateRegistryURL_accepts_names (N : Network) (s : string) :
  registry_name s -> validateRegistryURL s = None.
Proof.
  intros Hname.
  assert (Hsep : strings.Contains s "://" = false).
  { destruct (strings.Contains s "://") eqn:Hc; [exfalso | reflexivity].
    apply Contains_first_byte in Hc.
    destruct Hname as (c & rest & -> & Hc0 & Hrest).
    cbn [list_ascii_of_string] in Hc. destruct Hc as [Heq|Hin].
    - apply (name_char_not_colon c); [now left | now symmetry].
    - apply (name_char_not_colon ":"); [|reflexivity].
      rewrite List.Forall_forall in Hrest. now apply Hrest. }
  unfold validateRegistryURL. rewrite Hsep. cbn [negb].
  apply plugin_facts.MatchString_spec in Hname. now rewrite Hname.
Qed.

Lemma validateRegistryURL_accepts_names_witness :
  validateRegistryURL (N := go_network sample_lookup) "my.registry-2" = None.
Proof.
  apply (validateRegistryURL_accepts_names (go_network sample_lookup) "my.registry-2").
  exists "m"%char, "y.registry-2"%string. split; [reflexivity|]. split.
  - left. change (nat_of_ascii "m") with 109%nat. lia.
  - apply plugin_facts.star_rest_spec. reflexivity.
Defined.

(** An absolute path is rejected as such, also when it has
    parent-directory segments: the test for an absolute path comes before
    the test for traversal. *)
Theorem validatePath_absolute (path : string) :
  filepath.IsAbs path = true ->
  validatePath path = Some "absolute paths are not allowed"%string.
Proof.
  intros Habs. unfold validatePath.
  destruct (String.eqb_spec path "") as [->|_]; [discriminate|].
  now rewrite filepath_facts.IsAbs_Clean, Habs.
Qed.

Lemma validatePath_absolute_witness :
  validatePath "/../../etc/passwd" = Some "absolute paths are not allowed"%string.
Proof. apply (validatePath_absolute "/../../etc/passwd"). reflexivity. Defined.

(** [isPrivateIP] judges an IPv4 address in its 16-byte form as it judges
    its four bytes: the mapped form of a private address is private. *)
Theorem isPrivateIP_mapped_form (a b c d : Byte.byte) :
  isPrivateIP (net.v4InV6Prefix ++ [a; b; c; d]) = isPrivateIP [a; b; c; d].
Proof. apply net_facts.isPrivateIP_To4. reflexivity. Qed.

(** A byte slice that is neither 4 nor 16 bytes long, the [nil] address
    among them, is never private. *)
Theorem isPrivateIP_malformed (ip : net.IP) :
  length ip <> 4%nat -> length ip <> 16%nat -> isPrivateIP ip = false.
Proof.
  intros H4 H16.
  assert (Hto4 : net.To4 ip = None).
  { unfold net.To4, net.IPv4len, net.IPv6len.
    apply Nat.eqb_neq in H4, H16. now rewrite H4, H16. }
  rewrite (net_facts.isPrivateIP_v6 ip Hto4).
  unfold in_listed_range, link_local_multicast. rewrite Hto4.
  apply Nat.eqb_neq in H16. now rewrite H16.
Qed.

Lemma isPrivateIP_malformed_witness : isPrivateIP [] = false.
Proof. apply (isPrivateIP_malformed []); discriminate. Defined.

Lemma bytes_eqb_eq (x y : list Byte.byte) : net.bytes_eqb x y = true -> x = y.
Proof.
  unfold net.bytes_eqb. intros H. apply andb_true_iff in H as [Hlen H].
  apply Nat.eqb_eq in Hlen. revert y Hlen H.
  induction x as [|a x IH]; intros [|b y] Hlen H; try discriminate; [reflexivity|].
  cbn in H. apply andb_true_iff in H as [Hab H].
  apply byte_dec_bl in Hab. subst. f_equal. apply IH; [now injection Hlen | exact H].
Qed.

Lemma metadata_v4_in_link_local (a b c d : Byte.byte) :
  existsb (fun block => net.Contains block [a; b; c; d]) cloudMetadata = true ->
  existsb (fun block => net.Contains block [a; b; c; d]) privateRanges = true.
Proof.
  assert (Hb : existsb (fun block => net.Contains block [a; b; c; d]) privateRanges
               || negb (existsb (fun block => net.Contains block [a; b; c; d]) cloudMetadata)
               = true).
  { change cloudMetadata with
      [ net.mkIPNet [xa9; xfe; xa9; xfe] [xff; xff; xff; xff]
      ; net.mkIPNet metadata_v6 (map (fun _ => xff) metadata_v6) ].
    change privateRanges with
      [ net.mkIPNet [x0a; x00; x00; x00] [xff; x00; x00; x00]
      ; net.mkIPNet [xac; x10; x00; x00] [xff; xf0; x00; x00]
      ; net.mkIPNet [xc0; xa8; x00; x00] [xff; xff; x00; x00]
      ; net.mkIPNet [x7f; x00; x00; x00] [xff; x00; x00; x00]
      ; net.mkIPNet [xa9; xfe; x00; x00] [xff; xff; x00; x00]
      ; net.mkIPNet [x00; x00; x00; x00] [xff; x00; x00; x00] ].
    cbn -[net.band Byte.eqb].
    rewrite ?net_facts.band_ff, ?net_facts.band_00.
    destruct a; try reflexivity; destruct b; reflexivity. }
  intros Hmeta. rewrite Hmeta, orb_false_r in Hb. exact Hb.
Qed.

(** The two cloud metadata endpoints never decide the verdict of
    [isPrivateIP]: every address that one of them contains lies in a private
    range of the list before them, or is private for [IsPrivate]. *)
Theorem cloudMetadata_subsumed (ip : net.IP) :
  existsb (fun block => net.Contains block ip) cloudMetadata = true ->
  existsb (fun block => net.Contains block ip) privateRanges = true
  \/ net.IsPrivate ip = true.
Proof.
  destruct (net.To4 ip) as [x|] eqn:H4.
  - destruct (net_facts.To4_Some _ _ H4) as (a & b & c & d & ->).
    rewrite !(net_facts.existsb_pointwise _ (fun block => net.Contains block [a; b; c; d])
                _ (fun n => net_facts.Contains_To4 n ip _ H4)).
    intros H. left. now apply metadata_v4_in_link_local.
  - intros H. right.
    change cloudMetadata with
      [ net.mkIPNet [xa9; xfe; xa9; xfe] [xff; xff; xff; xff]
      ; net.mkIPNet metadata_v6 (map (fun _ => xff) metadata_v6) ] in H.
    cbn [existsb] in H. rewrite !(net_facts.Contains_None ip _ H4) in H.
    pose proof (net_facts.To4_None _ H4) as Hlen4. apply Nat.eqb_neq in Hlen4.
    change (net.networkNumberAndMask (net.mkIPNet [xa9; xfe; xa9; xfe] [xff; xff; xff; xff]))
      with (Some ([xa9; xfe; xa9; xfe], [xff; xff; xff; xff])) in H.
    change (net.networkNumberAndMask (net.mkIPNet metadata_v6 (map (fun _ => xff) metadata_v6)))
      with (Some (metadata_v6, map (fun _ => xff) metadata_v6)) in H.
    cbn [length] in H. rewrite Hlen4 in H. cbn [negb orb] in H.
    destruct (length ip =? length metadata_v6)%nat eqn:H16; [|discriminate].
    apply Nat.eqb_eq in H16. cbn [negb] in H. rewrite orb_false_r in H.
    rewrite net_facts.same_network_ones in H by (symmetry; exact H16).
    apply bytes_eqb_eq in H. subst ip. reflexivity.
Qed.

Lemma cloudMetadata_subsumed_witness :
  existsb (fun block => net.Contains block [xa9; xfe; xa9; xfe]) privateRanges = true
  \/ net.IsPrivate [xa9; xfe; xa9; xfe] = true.
Proof. apply (cloudMetadata_subsumed [xa9; xfe; xa9; xfe]). reflexivity. Defined.

(** ** The validation entry point *)

Lemma Build_Valid (vb : list ValidationError) : Valid (Build vb) = true <-> vb = [].
Proof. destruct vb; cbn; split; congruence. Qed.

Lemma Validate_errors
    {N : Network} {P : ConfigParser} {F : Float64} (config : gmap string any) :
  Errors (fst (Validate config))
  = match validatePath (ManifestPath (parseConfig config)) with
    | Some err => [mkValidationError "manifest_path" err]
    | None => []
    end
    ++ (if nonempty (Registry (parseConfig config)) then
          match validateRegistryURL (Registry (parseConfig config)) with
          | Some err => [mkValidationError "registry" err]
          | None => []
          end
        else [])
    ++ match config !! "jobs" with
       | Some jobs =>
           if negative_float64 jobs
           then [mkValidationError "jobs" "jobs must be a positive integer"]
           else []
       | None => []
       end.
Proof.
  unfold Validate, parseConfig. cbv zeta.
  cbn [fst ManifestPath Registry Build Errors].
  unfold NewValidationBuilder, AddError.
  destruct (validatePath _) as [e1|];
    (destruct (nonempty _); [destruct (validateRegistryURL _) as [e2|]|]);
    (destruct (config !! "jobs") as [jobs|]; [destruct (negative_float64 jobs)|]);
    reflexivity.
Qed.

(** [Validate] and the validation step of [Execute] agree: [Validate]
    finds the configuration valid if and only if [validateConfig] accepts
    the parsed configuration and the [jobs] value is not a negative
    number. *)
Theorem Validate_valid_iff
    (N : Network) (P : ConfigParser) (F : Float64) (config : gmap string any) :
  Valid (fst (Validate config)) = true
  <-> validateConfig (parseConfig config) = None
      /\ match config !! "jobs" with
         | Some jobs => negative_float64 jobs = false
         | None => True
         end.
Proof.
  unfold Validate, validateConfig, parseConfig. cbv zeta.
  cbn [fst ManifestPath Registry]. rewrite Build_Valid.
  unfold NewValidationBuilder, AddError.
  destruct (validatePath _) as [e1|];
    (destruct (nonempty _); [destruct (validateRegistryURL _) as [e2|]|]);
    (destruct (config !! "jobs") as [jobs|]; [destruct (negative_float64 jobs)|]);
    cbn [app]; (split; [intros H | intros [H1 H2]]); try congruence; auto.
Qed.

(** [Validate] goes through all its checks and reports their errors in the
    order manifest path, registry, jobs, at most one for each field, where
    the validation step of [Execute] stops at the first: when both the
    manifest path and the registry are bad, [Validate] reports the two and
    [validateConfig] the manifest path only. *)
Theorem Validate_accumulates
    (N : Network) (P : ConfigParser) (F : Float64) (config : gmap string any) :
  sublist (map Field (Errors (fst (Validate config))))
    ["manifest_path"; "registry"; "jobs"]%string
  /\ forall e1 e2 : string,
       validatePath (ManifestPath (parseConfig config)) = Some e1 ->
       Registry (parseConfig config) <> ""%string ->
       validateRegistryURL (Registry (parseConfig config)) = Some e2 ->
       (exists rest,
          Errors (fst (Validate config))
          = mkValidationError "manifest_path" e1
            :: mkValidationError "registry" e2 :: rest)
       /\ validateConfig (parseConfig config) = Some ("invalid manifest_path: " +:+ e1).
Proof.
  unfold Validate, validateConfig, parseConfig. cbv zeta.
  cbn [fst ManifestPath Registry Build Errors].
  unfold NewValidationBuilder, AddError. split.
  - destruct (validatePath _) as [e1|];
      (destruct (nonempty _); [destruct (validateRegistryURL _) as [e2|]|]);
      (destruct (config !! "jobs") as [jobs|]; [destruct (negative_float64 jobs)|]);
      cbn [app map Field]; repeat (first [apply sublist_skip | apply sublist_cons | apply sublist_nil]).
  - intros e1 e2 -> Hreg ->.
    apply plugin_facts.nonempty_spec in Hreg. rewrite Hreg. split; [|reflexivity].
    destruct (config !! "jobs") as [jobs|]; [destruct (negative_float64 jobs)|];
      cbn [app]; eauto.
Qed.

(** When the validation step of [Execute] fails, in either mode, the error
    of the response is built from the first error that [Validate] reports
    for the same configuration map: its field and its message. *)
Theorem Execute_reports_first_validation_error
    (N : Network) (P : ConfigParser) (F : Float64)
    (config : gmap string any) (ctx : ReleaseContext) (dryRun : bool) :
  validateConfig (parseConfig config) <> None ->
  exists (e : ValidationError) (rest : list ValidationError),
    Errors (fst (Validate config)) = e :: rest
    /\ (Field e = "manifest_path"%string \/ Field e = "registry"%string)
    /\ Execute (mkExecuteRequest HookPostPublish config ctx dryRun)
       = Ret (failure ("configuration validation failed: invalid "
                       +:+ Field e +:+ ": " +:+ ve_Message e), None).
Proof.
  rewrite Execute_post_publish, Validate_errors. unfold publish, validateConfig.
  destruct (validatePath _) as [e1|].
  - intros _. exists (mkValidationError "manifest_path" e1). eexists.
    split; [reflexivity|]. split; [now left | reflexivity].
  - destruct (nonempty _); [|congruence].
    destruct (validateRegistryURL _) as [e2|]; [|congruence].
    intros _. exists (mkValidationError "registry" e2). eexists.
    split; [reflexivity|]. split; [now right | reflexivity].
Qed.

Lemma Execute_reports_first_validation_error_witness :
  exists (e : ValidationError) (rest : list ValidationError),
    Errors (fst (Validate (N := go_network no_dns) (P := sdk_parser ∅) (F := json_numbers)
                   (<["manifest_path" := AString "../x"]>
                      (<["registry" := AString "http://example.com"]> ∅))))
    = e :: rest
    /\ (Field e = "manifest_path"%string \/ Field e = "registry"%string)
    /\ Execute (N := go_network no_dns) (P := sdk_parser ∅)
         (mkExecuteRequest HookPostPublish
            (<["manifest_path" := AString "../x"]>
               (<["registry" := AString "http://example.com"]> ∅))
            (mkReleaseContext "v1.0.0" "" "") true)
       = Ret (failure ("configuration validation failed: invalid "
                       +:+ Field e +:+ ": " +:+ ve_Message e), None).
Proof.
  apply (Execute_reports_first_validation_error (go_network no_dns) (sdk_parser ∅)
           json_numbers
           (<["manifest_path" := AString "../x"]>
              (<["registry" := AString "http://example.com"]> ∅))
           (mkReleaseContext "v1.0.0" "" "") true).
  discriminate.
Defined.

(** ** [filepath.Clean] computes the lexical meaning of the path *)

Module clean_facts.
Import filepath.

Lemma elements_nonempty path : elements path <> [].
Proof.
  destruct path as [|c path]; cbn; [discriminate|].
  destruct (IsPathSeparator c); [discriminate|].
  destruct (elements path); discriminate.
Qed.

Lemma elements_no_sep path : Forall no_sep (elements path).
Proof.
  induction path as [|c path IH]; cbn.
  - repeat constructor.
  - destruct (IsPathSeparator c) eqn:Hc.
    + constructor; [constructor | exact IH].
    + destruct (elements path) as [|e es]; [repeat constructor; exact Hc|].
      inversion IH; subst. constructor; [constructor; assumption | assumption].
Qed.

Lemma elements_boundary rest :
  at_boundary rest -> exists es, elements rest = [] :: es.
Proof.
  unfold at_boundary. destruct rest as [|c rest]; cbn; [eauto|].
  intros ->. eauto.
Qed.

Lemma elements_app e rest :
  no_sep e -> at_boundary rest -> elements (e ++ rest) = e :: tl (elements rest).
Proof.
  intros He Hrest. induction He as [|c e Hc He IH]; cbn [app].
  - destruct (elements_boundary rest Hrest) as [es Hes]. now rewrite Hes.
  - cbn [elements]. rewrite Hc, IH. reflexivity.
Qed.

Lemma step_empty rooted st : step rooted st [] = st.
Proof. destruct st. reflexivity. Qed.

Lemma step_dot rooted st : step rooted st dot = st.
Proof. destruct st. reflexivity. Qed.

Lemma lexical_of_boundary rooted rest st :
  at_boundary rest ->
  lexical_of rooted rest st = fold_left (step rooted) (tl (elements rest)) st.
Proof.
  intros Hrest. unfold lexical_of.
  destruct (elements_boundary rest Hrest) as [es ->]. cbn [tl fold_left].
  now rewrite step_empty.
Qed.

Lemma lexical_of_nil rooted st : lexical_of rooted [] st = st.
Proof. unfold lexical_of. cbn [elements fold_left]. apply step_empty. Qed.

Lemma lexical_of_sep rooted c rest st :
  IsPathSeparator c = true -> lexical_of rooted (c :: rest) st = lexical_of rooted rest st.
Proof.
  intros Hc. unfold lexical_of. cbn [elements]. rewrite Hc.
  cbn [fold_left]. now rewrite step_empty.
Qed.

Lemma lexical_of_element rooted e rest st :
  no_sep e -> at_boundary rest ->
  lexical_of rooted (e ++ rest) st = lexical_of rooted rest (step rooted st e).
Proof.
  intros He Hrest. rewrite (lexical_of_boundary rooted rest _ Hrest).
  unfold lexical_of. now rewrite (elements_app e rest He Hrest).
Qed.

Lemma element_spec rest :
  let '(e, rest') := element rest in
  rest = e ++ rest' /\ no_sep e /\ at_boundary rest'.
Proof.
  induction rest as [|c rest IH]; cbn.
  - repeat split. constructor.
  - destruct (IsPathSeparator c) eqn:Hc.
    + repeat split; [constructor | exact Hc].
    + destruct (element rest) as [e rest']. destruct IH as (-> & He & Hr).
      repeat split; [constructor; assumption | exact Hr].
Qed.

Lemma join_snoc es e :
  join (es ++ [e]) = match es with
                     | [] => e
                     | _ => join es ++ Separator :: e
                     end.
Proof.
  induction es as [|x es IH]; [reflexivity|].
  change ((x :: es) ++ [e]) with (x :: (es ++ [e])).
  destruct es as [|y es]; [reflexivity|].
  change (join (x :: (y :: es) ++ [e]))
    with (x ++ Separator :: join ((y :: es) ++ [e])).
  rewrite IH. change (join (x :: y :: es)) with (x ++ Separator :: join (y :: es)).
  now rewrite <- app_assoc.
Qed.

Lemma join_nil es : Forall (fun e => e <> []) es -> join es = [] -> es = [].
Proof.
  intros Hes. destruct Hes as [|e es He Hes]; [reflexivity|].
  destruct es; cbn; [congruence|]. destruct e; [congruence | discriminate].
Qed.

Lemma join_length_snoc es e : (length (join es) <= length (join (es ++ [e])))%nat.
Proof.
  rewrite join_snoc. destruct es; [cbn; lia|]. rewrite length_app. lia.
Qed.

Lemma join_length_app es es' : (length (join es) <= length (join (es ++ es')))%nat.
Proof.
  induction es' as [|e es' IH] using rev_ind; [now rewrite app_nil_r|].
  rewrite app_assoc. etransitivity; [exact IH | apply join_length_snoc].
Qed.

Lemma is_name_nonempty es : Forall is_name es -> Forall (fun e => e <> []) es.
Proof. intros H. eapply Forall_impl; [exact H|]. intros e (He & _). exact He. Qed.

Lemma dotdots_nonempty k : Forall (fun e : list ascii => e <> []) (repeat dotdot k).
Proof. induction k; cbn; constructor; [discriminate | assumption]. Qed.

Lemma all_nonempty k names :
  Forall is_name names -> Forall (fun e => e <> []) (repeat dotdot k ++ names).
Proof.
  intros H. apply Forall_app. split; [apply dotdots_nonempty | now apply is_name_nonempty].
Qed.

Lemma repeat_snoc {A} (x : A) k : repeat x (S k) = repeat x k ++ [x].
Proof. induction k as [|k IH]; [reflexivity|]. cbn in *. now rewrite <- IH. Qed.

(** The scan of [backtrack] stops at the first index, from [w] down, that
    is [dotdot] or holds a separator. *)
Lemma backtrack_scan out dotdot k w :
  (k <= w)%nat -> (dotdot <= k)%nat ->
  (forall i, (k < i)%nat -> (i <= w)%nat -> IsPathSeparator (index out i) = false) ->
  k = dotdot \/ IsPathSeparator (index out k) = true ->
  backtrack out dotdot w = k.
Proof.
  induction w as [|w IH]; intros Hkw Hdk Hscan Hstop.
  - cbn. lia.
  - cbn [backtrack]. destruct (Nat.eq_dec k (S w)) as [->|Hne].
    + destruct Hstop as [->|Hsep].
      * now rewrite Nat.ltb_irrefl.
      * rewrite Hsep. cbn [negb]. now rewrite andb_false_r.
    + assert (Hlt : (dotdot <? S w)%nat = true) by (apply Nat.ltb_lt; lia).
      rewrite Hlt, (Hscan (S w)) by lia. cbn [negb andb].
      apply IH; [lia | lia | | exact Hstop]. intros i Hi Hi'. apply Hscan; lia.
Qed.

Lemma index_app_r pre e i :
  no_sep e -> (length pre <= i)%nat -> (i < length pre + length e)%nat ->
  IsPathSeparator (index (pre ++ e) i) = false.
Proof.
  intros He Hi Hi'. unfold index. rewrite app_nth2 by lia.
  unfold no_sep in He. rewrite List.Forall_forall in He. apply He.
  apply nth_In. lia.
Qed.

(** Backtracking over the last name of the buffer. *)
Lemma backtrack_last_name pre e dotdot :
  e <> [] -> no_sep e -> (dotdot <= length pre)%nat ->
  length pre = dotdot
  \/ (exists base, pre = base ++ [Separator] /\ (dotdot <= length base)%nat) ->
  take (backtrack (pre ++ e) dotdot (length (pre ++ e) - 1)) (pre ++ e)
  = match pre with
    | [] => []
    | _ => if (length pre =? dotdot)%nat then pre else removelast pre
    end.
Proof.
  intros He Hsep Hdd Hshape. rewrite length_app.
  assert (Hlen : (0 < length e)%nat) by (destruct e; [congruence | cbn; lia]).
  destruct (Nat.eq_dec (length pre) dotdot) as [Heq|Hne].
  - rewrite (backtrack_scan _ dotdot dotdot); [| lia | lia | | now left].
    + rewrite <- Heq, take_app_length.
      destruct pre; [reflexivity|]. now rewrite Nat.eqb_refl.
    + intros i Hi Hi'. apply index_app_r; [exact Hsep | lia | lia].
  - destruct Hshape as [Heq|(base & -> & Hbase)]; [contradiction|].
    assert (Hpre : length (base ++ [Separator]) = S (length base))
      by (rewrite length_app; cbn; lia).
    rewrite Hpre in *.
    rewrite (backtrack_scan _ dotdot (length base)); [| lia | lia | |].
    + rewrite <- app_assoc, take_app_length.
      apply Nat.eqb_neq in Hne. rewrite Hne, removelast_last.
      destruct base; reflexivity.
    + intros i Hi Hi'. apply index_app_r; [exact Hsep | lia | lia].
    + right. unfold index. rewrite <- app_assoc, app_nth2 by lia.
      now rewrite Nat.sub_diag.
Qed.

End clean_facts.

Module clean_loop_facts.
Import filepath clean_facts.

Lemma all_nil k (names : list (list ascii)) :
  repeat dotdot k ++ names = [] -> k = 0%nat /\ names = [].
Proof. destruct k; cbn; [auto | discriminate]. Qed.

Lemma no_names_length rooted dots :
  (rooted = true -> dots = 0%nat) ->
  length (render rooted (dots, [])) = dotdot_index rooted (dots, []).
Proof.
  intros Hroot. unfold render, dotdot_index. cbn [fst snd]. rewrite app_nil_r.
  destruct rooted; [rewrite Hroot by reflexivity|]; reflexivity.
Qed.

Lemma backtrack_render rooted dots names n :
  wf rooted (dots, names ++ [n]) ->
  let out := render rooted (dots, names ++ [n]) in
  let dd := dotdot_index rooted (dots, names ++ [n]) in
  (dd <? length out)%nat = true
  /\ take (backtrack out dd (length out - 1)) out = render rooted (dots, names).
Proof.
  intros [Hroot Hnames]. cbn [fst snd] in *.
  apply Forall_app in Hnames as [Hnames Hn]. inversion Hn as [|? ? (Hne & Hsep & _) _]; subst.
  cbv zeta. unfold render, dotdot_index. cbn [fst snd].
  set (root := if rooted then [Separator] else []).
  set (dd := if rooted then 1%nat else length (join (repeat dotdot dots))).
  rewrite (app_assoc (repeat dotdot dots) names [n]), join_snoc.
  set (all := repeat dotdot dots ++ names).
  assert (Hlen : (0 < length n)%nat) by (destruct n; [congruence | cbn; lia]).
  destruct all as [|a all'] eqn:Hall.
  - apply all_nil in Hall as [-> ->].
    assert (Hdd : dd = length root) by (subst dd root; destruct rooted; reflexivity).
    split; [apply Nat.ltb_lt; rewrite length_app; lia|].
    rewrite (backtrack_last_name root n dd Hne Hsep); [| lia | left; lia].
    rewrite Hdd, Nat.eqb_refl. cbn [join]. rewrite app_nil_r. now destruct root.
  - set (base := root ++ join (a :: all')).
    assert (Hdd : (dd <= length base)%nat).
    { subst dd base root. destruct rooted; [cbn; lia|]. cbn [app].
      rewrite <- Hall. apply join_length_app. }
    replace (root ++ join (a :: all') ++ Separator :: n)
      with ((base ++ [Separator]) ++ n)
      by (subst base; rewrite <- !app_assoc; reflexivity).
    assert (Hpre : length (base ++ [Separator]) = S (length base))
      by (rewrite length_app; cbn; lia).
    split; [apply Nat.ltb_lt; rewrite length_app; lia|].
    rewrite (backtrack_last_name _ n dd Hne Hsep); [| lia | right; eauto].
    rewrite Hpre.
    assert (Hneq : (S (length base) =? dd)%nat = false) by (apply Nat.eqb_neq; lia).
    rewrite Hneq, removelast_last. now destruct base.
Qed.

Lemma join_nonempty es :
  es <> [] -> Forall (fun e => e <> []) es -> (0 < length (join es))%nat.
Proof.
  intros Hne Hes. destruct (join es) eqn:Hj; [|cbn; lia].
  apply join_nil in Hj; [contradiction | exact Hes].
Qed.

Lemma push_dotdot dots :
  let out := render false (dots, []) in
  (if (0 <? length out)%nat then out ++ [Separator] else out) ++ dotdot
  = render false (S dots, []).
Proof.
  cbv zeta. unfold render. cbn [fst snd app]. rewrite !app_nil_r.
  rewrite repeat_snoc, join_snoc.
  destruct dots as [|k]; [reflexivity|].
  assert (H : (0 < length (join (repeat dotdot (S k))))%nat)
    by (apply join_nonempty; [discriminate | apply dotdots_nonempty]).
  apply Nat.ltb_lt in H. rewrite H. cbn [repeat]. now rewrite <- app_assoc.
Qed.

Lemma push_name rooted dots names e :
  wf rooted (dots, names) ->
  let out := render rooted (dots, names) in
  (if (rooted && negb (length out =? 1)%nat) || (negb rooted && negb (length out =? 0)%nat)
   then out ++ [Separator] else out) ++ e
  = render rooted (dots, names ++ [e]).
Proof.
  intros [Hroot Hnames]. cbn [fst snd] in *. cbv zeta.
  unfold render. cbn [fst snd].
  rewrite (app_assoc (repeat dotdot dots) names [e]), join_snoc.
  pose proof (all_nonempty dots names Hnames) as Hall.
  destruct (repeat dotdot dots ++ names) as [|a all'] eqn:Heq.
  - destruct rooted; reflexivity.
  - assert (H : (0 < length (join (a :: all')))%nat)
      by (apply join_nonempty; [discriminate | exact Hall]).
    assert (Hcond : (rooted && negb (length ((if rooted then [Separator] else [])
                                               ++ join (a :: all')) =? 1)%nat)
                    || (negb rooted && negb (length ((if rooted then [Separator] else [])
                                               ++ join (a :: all')) =? 0)%nat) = true).
    { destruct rooted; cbn [andb negb orb app length].
      - rewrite orb_false_r. apply negb_true_iff, Nat.eqb_neq. lia.
      - apply negb_true_iff, Nat.eqb_neq. lia. }
    rewrite Hcond. now rewrite <- !app_assoc.
Qed.

Lemma is_dot_spec c : is_dot c = true <-> c = "."%char.
Proof. unfold is_dot. apply Ascii.eqb_eq. Qed.

Lemma dot_no_sep : no_sep dot.
Proof. repeat constructor. Qed.

Lemma dotdot_no_sep : no_sep dotdot.
Proof. repeat constructor. Qed.

Lemma step_name rooted dots names e :
  is_name e -> step rooted (dots, names) e = (dots, names ++ [e]).
Proof.
  intros (H1 & _ & H2 & H3). unfold step.
  rewrite !bool_decide_eq_false_2 by assumption. reflexivity.
Qed.

Lemma Forall_removelast {A} (Q : A -> Prop) (l : list A) :
  Forall Q l -> Forall Q (removelast l).
Proof.
  induction 1 as [|x l Hx Hl IH]; [constructor|].
  cbn. destruct l; [constructor | now constructor].
Qed.

Lemma step_wf rooted st e : wf rooted st -> no_sep e -> wf rooted (step rooted st e).
Proof.
  destruct st as [dots names]. intros [Hroot Hnames] He. unfold step.
  destruct (bool_decide_reflect (e = [])) as [|H1]; cbn [orb]; [now split|].
  destruct (bool_decide_reflect (e = dot)) as [|H2]; [now split|].
  destruct (bool_decide_reflect (e = dotdot)) as [|H3].
  - destruct names as [|n0 names0].
    + destruct rooted; [now split|]. split; [discriminate | constructor].
    + split; [exact Hroot|]. now apply Forall_removelast.
  - split; [exact Hroot|]. cbn [snd] in *. apply Forall_app. split; [exact Hnames|].
    repeat constructor; assumption.
Qed.

Lemma lexical_of_wf rooted path st : wf rooted st -> wf rooted (lexical_of rooted path st).
Proof.
  unfold lexical_of. pose proof (elements_no_sep path) as Hes.
  revert st. induction Hes as [|e es He Hes IH]; intros st Hst; [exact Hst|].
  cbn [fold_left]. apply IH. now apply step_wf.
Qed.

(** The loop of [Clean], started on the bytes of a cleaned path, ends on
    the bytes of the cleaned path of what it reads. *)
Lemma step_dotdot_no_names rooted dots :
  step rooted (dots, []) dotdot = if rooted then (dots, []) else (S dots, []).
Proof. reflexivity. Qed.

Lemma step_dotdot_names rooted dots names n :
  step rooted (dots, names ++ [n]) dotdot = (dots, names).
Proof.
  unfold step. cbn [orb].
  change (bool_decide (dotdot = [])) with false.
  change (bool_decide (dotdot = dot)) with false.
  change (bool_decide (dotdot = dotdot)) with true. cbv iota.
  destruct (names ++ [n]) eqn:Heq; [destruct names; discriminate|].
  now rewrite <- Heq, removelast_last.
Qed.

Lemma real_element c rest1 e rest' :
  IsPathSeparator c = false ->
  is_dot c && at_end_or_sep rest1 = false ->
  is_dot c && is_dot (hd Separator rest1) && at_end_or_sep (tl rest1) = false ->
  element (c :: rest1) = (e, rest') ->
  is_name e /\ c :: rest1 = e ++ rest' /\ at_boundary rest'
  /\ (length rest' <= length rest1)%nat.
Proof.
  intros Hsep Hdot Hdd Helem.
  pose proof (element_spec (c :: rest1)) as Hspec. rewrite Helem in Hspec.
  destruct Hspec as (Hrest & He & Hb).
  destruct (filepath_facts.element_head c rest1 Hsep) as (e1 & r & Hhead & Hlen).
  rewrite Helem in Hhead. injection Hhead as He1 Hr. subst e rest'.
  injection Hrest as Hrest1.
  split; [|split; [now rewrite Hrest1 at 1 | split; [exact Hb | exact Hlen]]].
  split; [discriminate|]. split; [exact He|].
  unfold at_boundary in Hb.
  split; intros [= Hc He1]; subst c e1; cbn [app] in Hrest1.
  - rewrite <- Hrest1 in Hb. rewrite Hb in Hdot. discriminate.
  - rewrite Hrest1 in Hdd. cbn [hd tl] in Hdd. rewrite Hb in Hdd. discriminate.
Qed.

Lemma clean_loop_lexical fuel rooted rest st :
  (length rest <= fuel)%nat -> wf rooted st ->
  clean_loop fuel rooted rest (render rooted st) (dotdot_index rooted st)
  = Some (render rooted (lexical_of rooted rest st)).
Proof.
  revert rest st. induction fuel as [|fuel IH]; intros rest st Hlen Hst.
  - destruct rest; [|cbn in Hlen; lia]. cbn [clean_loop]. now rewrite lexical_of_nil.
  - destruct rest as [|c rest1]; [cbn [clean_loop]; now rewrite lexical_of_nil|].
    cbn [clean_loop]. cbn [length] in Hlen.
    destruct (IsPathSeparator c) eqn:Hsep.
    { rewrite (lexical_of_sep _ _ _ _ Hsep). apply IH; [lia | exact Hst]. }
    destruct (is_dot c && at_end_or_sep rest1) eqn:Hdot.
    { apply andb_true_iff in Hdot as [Hc Hb]. apply is_dot_spec in Hc. subst c.
      change ("."%char :: rest1) with (dot ++ rest1).
      rewrite (lexical_of_element _ dot rest1 _ dot_no_sep Hb), step_dot.
      apply IH; [lia | exact Hst]. }
    destruct (is_dot c && is_dot (hd Separator rest1) && at_end_or_sep (tl rest1)) eqn:Hdd.
    { apply andb_true_iff in Hdd as [Hdd Hb]. apply andb_true_iff in Hdd as [Hc Hc2].
      apply is_dot_spec in Hc. subst c.
      destruct rest1 as [|c2 rest2]; [discriminate Hc2|].
      cbn [hd tl length] in *. apply is_dot_spec in Hc2. subst c2.
      change ("."%char :: "."%char :: rest2) with (dotdot ++ rest2).
      rewrite (lexical_of_element _ dotdot rest2 _ dotdot_no_sep Hb).
      destruct st as [dots names].
      destruct names as [|n0 names0] eqn:Hnames.
      - assert (Hlt : (dotdot_index rooted (dots, []) <? length (render rooted (dots, [])))%nat
                      = false)
          by (rewrite (no_names_length rooted dots (proj1 Hst)); apply Nat.ltb_irrefl).
        rewrite Hlt, step_dotdot_no_names.
        destruct rooted; cbn [negb].
        + apply IH; [lia | exact Hst].
        + change ["."%char; "."%char] with dotdot. rewrite push_dotdot.
          rewrite (no_names_length false (S dots)) by discriminate.
          apply IH; [lia|]. split; [discriminate | constructor].
      - rewrite <- Hnames in *.
        destruct (exists_last (l := names)) as (names' & n & ->); [subst; discriminate|].
        destruct (backtrack_render rooted dots names' n Hst) as [Hlt Htake].
        cbv zeta in Hlt, Htake. rewrite Hlt, Htake, step_dotdot_names.
        change (dotdot_index rooted (dots, names' ++ [n]))
          with (dotdot_index rooted (dots, names')).
        apply IH; [lia|]. destruct Hst as [Hroot Hn]. split; [exact Hroot|].
        cbn [snd] in *. now apply Forall_app in Hn as [? _]. }
    destruct (element (c :: rest1)) as [e rest'] eqn:Helem.
    destruct (real_element c rest1 e rest' Hsep Hdot Hdd Helem)
      as (Hname & Hrest & Hb & Hlen').
    rewrite Hrest. destruct st as [dots names].
    rewrite (lexical_of_element _ e rest' _ (proj1 (proj2 Hname)) Hb).
    rewrite (step_name _ _ _ _ Hname), (push_name rooted dots names e Hst).
    change (dotdot_index rooted (dots, names))
      with (dotdot_index rooted (dots, names ++ [e])).
    apply IH; [lia|]. destruct Hst as [Hroot Hn]. split; [exact Hroot|].
    cbn [snd] in *. apply Forall_app. split; [exact Hn | now constructor].
Qed.

End clean_loop_facts.

Module clean_meaning.
Import filepath clean_facts clean_loop_facts.

(** [Clean] returns the bytes of the cleaned path of its argument, [.] for
    the empty one. *)
Lemma clean_bytes_lexical path :
  clean_bytes path
  = match render (starts_sep path) (lexical_of (starts_sep path) path (0%nat, [])) with
    | [] => ["."%char]
    | out => out
    end.
Proof.
  destruct path as [|c path]; [reflexivity|].
  unfold clean_bytes. cbn [starts_sep].
  assert (Hwf : forall rooted, wf rooted (0%nat, [])) by (split; [reflexivity | constructor]).
  destruct (IsPathSeparator c) eqn:Hsep.
  - pose proof (clean_loop_lexical (length (c :: path)) true path (0%nat, [])) as H.
    change (render true (0%nat, [])) with [Separator] in H.
    change (dotdot_index true (0%nat, [])) with 1%nat in H.
    cbn [tl]. rewrite H; [| cbn; lia | apply Hwf].
    rewrite (lexical_of_sep true c path _ Hsep).
    now destruct (render true _).
  - pose proof (clean_loop_lexical (length (c :: path)) false (c :: path) (0%nat, [])) as H.
    change (render false (0%nat, [])) with (@nil ascii) in H.
    change (dotdot_index false (0%nat, [])) with 0%nat in H.
    rewrite H; [| cbn; lia | apply Hwf]. now destruct (render false _).
Qed.

Lemma elements_join es :
  es <> [] -> Forall no_sep es -> elements (join es) = es.
Proof.
  intros Hne Hes. induction Hes as [|e es He Hes IH]; [congruence|].
  destruct es as [|e' es'].
  - cbn [join]. rewrite <- (app_nil_r e) at 1.
    rewrite (elements_app e [] He); [reflexivity | reflexivity].
  - change (join (e :: e' :: es')) with (e ++ Separator :: join (e' :: es')).
    rewrite (elements_app e _ He); [| reflexivity].
    cbn [elements]. change (IsPathSeparator Separator) with true. cbv iota.
    cbn [tl]. now rewrite IH.
Qed.

Lemma is_name_no_sep es : Forall is_name es -> Forall no_sep es.
Proof. intros H. eapply Forall_impl; [exact H|]. intros e (_ & He & _). exact He. Qed.

Lemma all_no_sep k names :
  Forall is_name names -> Forall no_sep (repeat dotdot k ++ names).
Proof.
  intros H. apply Forall_app. split; [|now apply is_name_no_sep].
  induction k; cbn; constructor; [apply dotdot_no_sep | assumption].
Qed.

(** The elements of the bytes that [Clean] returns for a relative path. *)
Lemma elements_cleaned st :
  wf false st ->
  elements (match render false st with [] => ["."%char] | out => out end)
  = match repeat dotdot (fst st) ++ snd st with
    | [] => [dot]
    | es => es
    end.
Proof.
  destruct st as [dots names]. intros [_ Hnames]. cbn [fst snd] in *.
  unfold render. cbn [fst snd app].
  destruct (repeat dotdot dots ++ names) as [|e es] eqn:Hall; [reflexivity|].
  assert (Hlen : (0 < length (join (e :: es)))%nat).
  { apply join_nonempty; [discriminate|]. rewrite <- Hall. now apply all_nonempty. }
  assert (Hel : elements (join (e :: es)) = e :: es).
  { apply elements_join; [discriminate|]. rewrite <- Hall. now apply all_no_sep. }
  destruct (join (e :: es)); [cbn in Hlen; lia | exact Hel].
Qed.

Lemma segments_elements s :
  segments s = map string_of_list_ascii (elements (list_ascii_of_string s)).
Proof.
  induction s as [|c s IH]; [reflexivity|].
  cbn [segments list_ascii_of_string elements].
  destruct (IsPathSeparator c); cbn [map]; [now rewrite IH|].
  rewrite IH. destruct (elements (list_ascii_of_string s)); reflexivity.
Qed.

Lemma dotdot_eqb e :
  String.eqb ".." (string_of_list_ascii e) = bool_decide (e = dotdot).
Proof.
  destruct (bool_decide_reflect (e = dotdot)) as [->|Hne]; [reflexivity|].
  apply String.eqb_neq. intros H. apply Hne.
  rewrite <- (list_ascii_of_string_of_list_ascii e), <- H. reflexivity.
Qed.

Lemma has_parent_segment_bytes l :
  has_parent_segment (string_of_list_ascii l)
  = existsb (fun e => bool_decide (e = dotdot)) (elements l).
Proof.
  unfold has_parent_segment.
  rewrite segments_elements, list_ascii_of_string_of_list_ascii.
  induction (elements l) as [|e es IH]; [reflexivity|].
  cbn [map existsb]. now rewrite dotdot_eqb, IH.
Qed.

Lemma existsb_names names :
  Forall is_name names -> existsb (fun e => bool_decide (e = dotdot)) names = false.
Proof.
  induction 1 as [|e es (_ & _ & _ & He) _ IH]; [reflexivity|].
  cbn [existsb]. now rewrite bool_decide_eq_false_2, IH.
Qed.

(** The cleaned form of a relative path has a parent-directory segment
    exactly when the path climbs above its starting point. *)
Lemma has_parent_segment_Clean path :
  IsAbs path = false ->
  has_parent_segment (Clean path)
  = (0 <? fst (lexical_of false (list_ascii_of_string path) (0%nat, [])))%nat.
Proof.
  intros Hrel. rewrite filepath_facts.IsAbs_bytes in Hrel.
  unfold Clean. rewrite has_parent_segment_bytes, clean_bytes_lexical, Hrel.
  assert (Hwf : wf false (lexical_of false (list_ascii_of_string path) (0%nat, [])))
    by (apply lexical_of_wf; split; [discriminate | constructor]).
  rewrite (elements_cleaned _ Hwf).
  destruct (lexical_of false (list_ascii_of_string path) (0%nat, [])) as [dots names].
  destruct Hwf as [_ Hnames]. cbn [fst snd] in *.
  destruct dots as [|k]; cbn [repeat app].
  - destruct names as [|n names]; [reflexivity|]. now apply existsb_names.
  - reflexivity.
Qed.

Lemma step_dots rooted st e : (fst st <= fst (step rooted st e))%nat.
Proof.
  destruct st as [dots names]. unfold step.
  destruct (_ || _); [cbn; lia|]. destruct (bool_decide _); [|cbn; lia].
  destruct names; [destruct rooted|]; cbn; lia.
Qed.

Lemma removelast_two {A} (e l : A) es x :
  [x] <> removelast (e :: l :: es) ++ [x].
Proof.
  change (removelast (e :: l :: es)) with (e :: removelast (l :: es)).
  cbn [app]. intros [= _ H]. symmetry in H.
  apply app_eq_nil in H as [_ H]. discriminate.
Qed.

Lemma elements_cons c path :
  elements (c :: path)
  = if IsPathSeparator c then [] :: elements path
    else match elements path with
         | e :: es => (c :: e) :: es
         | [] => [[c]]
         end.
Proof. reflexivity. Qed.

Lemma elements_empty path : elements path = [[]] -> path = [].
Proof.
  destruct path as [|c path]; [reflexivity|]. rewrite elements_cons.
  pose proof (elements_nonempty path) as Hne.
  destruct (IsPathSeparator c), (elements path); congruence.
Qed.

Lemma elements_dir_prefix path :
  elements (dir_prefix path) = removelast (elements path) ++ [[]].
Proof.
  induction path as [|c path IH]; [reflexivity|].
  cbn [dir_prefix]. rewrite (elements_cons c path).
  pose proof (elements_nonempty path) as Hne.
  destruct (elements path) as [|e es]; [congruence|].
  destruct (dir_prefix path) as [|d ds] eqn:Hd.
  - change (elements []) with [@nil ascii] in IH.
    destruct es as [|l es]; [|now apply removelast_two in IH].
    destruct (IsPathSeparator c) eqn:Hc; [|reflexivity].
    rewrite elements_cons, Hc. reflexivity.
  - rewrite (elements_cons c (d :: ds)), IH.
    destruct es as [|l es]; [apply elements_empty in IH; discriminate|].
    destruct (IsPathSeparator c); reflexivity.
Qed.

(** The directory of a path climbs no higher than the path. *)
Lemma lexical_of_dir_prefix path st :
  (fst (lexical_of false (dir_prefix path) st) <= fst (lexical_of false path st))%nat.
Proof.
  unfold lexical_of. rewrite elements_dir_prefix.
  pose proof (elements_nonempty path) as Hne.
  rewrite (app_removelast_last [] Hne) at 2.
  rewrite !fold_left_app. cbn [fold_left]. rewrite step_empty. apply step_dots.
Qed.

Lemma starts_sep_dir_prefix path :
  starts_sep path = false -> starts_sep (dir_prefix path) = false.
Proof.
  destruct path as [|c path]; [reflexivity|]. cbn [starts_sep dir_prefix].
  intros Hc. destruct (dir_prefix path); [rewrite Hc|]; auto.
Qed.

(** The directory of a relative path that does not climb above its
    starting point is relative and does not climb above it either. *)
Lemma Dir_inside path :
  IsAbs path = false -> has_parent_segment (Clean path) = false ->
  IsAbs (Dir path) = false /\ has_parent_segment (Dir path) = false.
Proof.
  intros Hrel Hpar. rewrite (has_parent_segment_Clean path Hrel) in Hpar.
  apply Nat.ltb_ge in Hpar.
  pose proof Hrel as Hrel'. rewrite filepath_facts.IsAbs_bytes in Hrel'.
  apply starts_sep_dir_prefix in Hrel'.
  assert (Habs : IsAbs (string_of_list_ascii (dir_prefix (list_ascii_of_string path))) = false)
    by now rewrite filepath_facts.IsAbs_bytes, list_ascii_of_string_of_list_ascii.
  assert (HDir : Dir path
                 = Clean (string_of_list_ascii (dir_prefix (list_ascii_of_string path))))
    by (unfold Dir, Clean; now rewrite list_ascii_of_string_of_list_ascii).
  rewrite HDir.
  split; [now rewrite filepath_facts.IsAbs_Clean|].
  rewrite (has_parent_segment_Clean _ Habs), list_ascii_of_string_of_list_ascii.
  apply Nat.ltb_ge.
  pose proof (lexical_of_dir_prefix (list_ascii_of_string path) (0%nat, [])). lia.
Qed.

End clean_meaning.

Module clean_fixpoint.
Import filepath clean_facts clean_loop_facts clean_meaning.

Lemma fold_names rooted ns :
  Forall is_name ns ->
  forall dots acc, fold_left (step rooted) ns (dots, acc) = (dots, acc ++ ns).
Proof.
  induction 1 as [|n ns Hn _ IH]; intros dots acc; cbn [fold_left].
  - now rewrite app_nil_r.
  - rewrite (step_name rooted dots acc n Hn), IH, <- app_assoc. reflexivity.
Qed.

Lemma fold_dotdots k :
  forall dots, fold_left (step false) (repeat dotdot k) (dots, []) = ((dots + k)%nat, []).
Proof.
  induction k as [|k IH]; intros dots; cbn [repeat fold_left].
  - now rewrite Nat.add_0_r.
  - rewrite step_dotdot_no_names, IH. f_equal. lia.
Qed.

(** Reading a cleaned path gives back the state it was rendered from. *)
Lemma lexical_of_render rooted st :
  wf rooted st ->
  lexical_of rooted (match render rooted st with [] => ["."%char] | out => out end)
    (0%nat, []) = st.
Proof.
  destruct st as [dots names]. intros Hwf. destruct rooted.
  - destruct Hwf as [Hdots Hnames]. cbn [fst snd] in *.
    rewrite (Hdots eq_refl). unfold render. cbn [fst snd repeat app].
    rewrite (lexical_of_sep true Separator _ _ eq_refl).
    destruct names as [|n names]; [reflexivity|].
    unfold lexical_of. rewrite elements_join;
      [| discriminate | now apply is_name_no_sep].
    now rewrite (fold_names true _ Hnames).
  - unfold lexical_of. rewrite (elements_cleaned _ Hwf).
    destruct Hwf as [_ Hnames]. cbn [fst snd] in *.
    destruct (repeat dotdot dots ++ names) as [|e es] eqn:Hall.
    + apply app_eq_nil in Hall as [Hd ->]. destruct dots; [reflexivity | discriminate].
    + rewrite <- Hall, fold_left_app, fold_dotdots.
      now rewrite (fold_names false _ Hnames).
Qed.

(** Cleaning a cleaned path changes nothing. *)
Lemma clean_bytes_idempotent path : clean_bytes (clean_bytes path) = clean_bytes path.
Proof.
  rewrite (clean_bytes_lexical (clean_bytes path)), filepath_facts.clean_bytes_starts_sep.
  rewrite (clean_bytes_lexical path) at 1.
  rewrite lexical_of_render
    by (apply lexical_of_wf; split; [reflexivity | constructor]).
  symmetry. apply clean_bytes_lexical.
Qed.

Lemma Clean_idempotent path : Clean (Clean path) = Clean path.
Proof.
  unfold Clean. rewrite list_ascii_of_string_of_list_ascii.
  now rewrite clean_bytes_idempotent.
Qed.

Lemma Clean_nonempty path : Clean path <> ""%string.
Proof.
  unfold Clean. pose proof (filepath_facts.clean_bytes_nonempty (list_ascii_of_string path)).
  destruct (clean_bytes _); [congruence | discriminate].
Qed.

End clean_fixpoint.

(** ** The manifest path and the working directory *)

Lemma validatePath_accepts (path : string) :
  path <> ""%string -> validatePath path = None ->
  filepath.IsAbs path = false /\ has_parent_segment (filepath.Clean path) = false.
Proof.
  intros Hne. unfold validatePath.
  destruct (String.eqb_spec path ""); [contradiction|].
  destruct (filepath.IsAbs (filepath.Clean path)) eqn:Habs; [discriminate|].
  rewrite strings_facts.dotdot_tests.
  destruct (has_dotdot_segment (filepath.Clean path)) eqn:Hdd; [discriminate|].
  intros _. split; [now rewrite <- filepath_facts.IsAbs_Clean|].
  destruct (has_parent_segment (filepath.Clean path)) eqn:Hpar; [|reflexivity].
  apply parent_segment_dotdot in Hpar. congruence.
Qed.

(** [validatePath] gives a path and its cleaned form the same verdict:
    cleaning a path before it is validated changes nothing. *)
Theorem validatePath_cleaned (path : string) :
  validatePath (filepath.Clean path) = validatePath path.
Proof.
  destruct (String.eqb_spec path "") as [->|Hne]; [reflexivity|].
  unfold validatePath.
  destruct (String.eqb_spec path ""); [contradiction|].
  destruct (String.eqb_spec (filepath.Clean path) "") as [He|_];
    [now apply clean_fixpoint.Clean_nonempty in He|].
  now rewrite clean_fixpoint.Clean_idempotent.
Qed.

(** [validatePath] rejects every relative path that climbs above the
    directory it starts from, when its elements are read from left to right,
    empty elements and [.] skipped and [..] cancelling the name before it. *)
Theorem validatePath_rejects_climbing (path : string) :
  filepath.IsAbs path = false ->
  (0 < fst (lexical_of false (list_ascii_of_string path) (0%nat, [])))%nat ->
  validatePath path
  = Some "path traversal detected: cannot use '..' to escape working directory"%string.
Proof.
  intros Hrel Hclimb. unfold validatePath.
  destruct (String.eqb_spec path "") as [->|_]; [cbn in Hclimb; lia|].
  rewrite filepath_facts.IsAbs_Clean, Hrel, strings_facts.dotdot_tests.
  rewrite (parent_segment_dotdot (filepath.Clean path)); [reflexivity|].
  rewrite (clean_meaning.has_parent_segment_Clean path Hrel).
  now apply Nat.ltb_lt.
Qed.

Lemma validatePath_rejects_climbing_witness :
  validatePath "crates/../../Cargo.toml"
  = Some "path traversal detected: cannot use '..' to escape working directory"%string.
Proof.
  apply (validatePath_rejects_climbing "crates/../../Cargo.toml");
    [reflexivity | vm_compute; lia].
Defined.

(** When [publish] runs [cargo] for a configuration that passed
    [validateConfig], either the manifest path is the default one and no
    directory is set, or the directory is the one of the manifest path, which
    is relative and has no parent-directory element: [cargo] is never started
    outside the tree below the current directory. *)
Theorem working_directory_stays_inside {N : Network} (cfg : Config)
    (ctx : ReleaseContext) :
  validateConfig cfg = None -> Token cfg <> ""%string ->
  match publish cfg ctx false with
  | RunInDir dir name args _ =>
      custom_manifest cfg = true /\ dir = filepath.Dir (ManifestPath cfg)
      /\ filepath.IsAbs dir = false /\ has_parent_segment dir = false
      /\ fst (lexical_of false (list_ascii_of_string dir) (0%nat, [])) = 0%nat
  | Run name args _ => custom_manifest cfg = false
  | Ret _ => False
  end.
Proof.
  intros Hvalid Htoken. rewrite (publish_real cfg ctx Hvalid Htoken). cbv zeta.
  destruct (custom_manifest cfg) eqn:Hcustom; [|reflexivity].
  split; [reflexivity|]. split; [reflexivity|].
  assert (Hne : ManifestPath cfg <> ""%string).
  { unfold custom_manifest in Hcustom. apply andb_prop in Hcustom as [Hne _].
    now apply plugin_facts.nonempty_spec. }
  assert (Hpath : validatePath (ManifestPath cfg) = None).
  { unfold validateConfig in Hvalid.
    destruct (validatePath (ManifestPath cfg)); [discriminate | reflexivity]. }
  destruct (validatePath_accepts _ Hne Hpath) as [Hrel Hpar].
  destruct (clean_meaning.Dir_inside _ Hrel Hpar) as [Habs Hdir].
  split; [exact Habs|]. split; [exact Hdir|].
  assert (HDir : filepath.Dir (ManifestPath cfg)
                 = filepath.Clean (filepath.Dir (ManifestPath cfg))).
  { unfold filepath.Dir, filepath.Clean.
    now rewrite list_ascii_of_string_of_list_ascii, clean_fixpoint.clean_bytes_idempotent. }
  rewrite HDir in Hdir.
  rewrite (clean_meaning.has_parent_segment_Clean _ Habs) in Hdir.
  apply Nat.ltb_ge in Hdir. lia.
Qed.

Lemma working_directory_stays_inside_witness :
  match @publish (go_network no_dns) (sample_config "crates/core/Cargo.toml")
          (mkReleaseContext "v1.2.3" "" "") false with
  | RunInDir dir name args _ =>
      custom_manifest (sample_config "crates/core/Cargo.toml") = true /\ dir = filepath.Dir (ManifestPath (sample_config "crates/core/Cargo.toml"))
      /\ filepath.IsAbs dir = false /\ has_parent_segment dir = false
      /\ fst (lexical_of false (list_ascii_of_string dir) (0%nat, [])) = 0%nat
  | Run name args _ => custom_manifest (sample_config "crates/core/Cargo.toml") = false
  | Ret _ => False
  end.
Proof.
  apply (@working_directory_stays_inside (go_network no_dns)
           (sample_config "crates/core/Cargo.toml")
           (mkReleaseContext "v1.2.3" "" "")); [reflexivity | discriminate].
Defined.

(** ** Errors and ignored values *)

(** [Execute] never returns a Go error: against every executor and for every
    request the error is [nil], and a failure is told by the response, which
    is unsuccessful exactly when its error text is not empty; an unsuccessful
    response has neither a message nor outputs. *)
Theorem Execute_error_in_response
    (N : Network) (P : ConfigParser) (req : ExecuteRequest)
    (S : Type) (E : CommandExecutor S) (s : S) :
  let r := fst (run_with (Execute req) s) in
  snd r = None
  /\ (Success (fst r) = true <-> Error (fst r) = ""%string)
  /\ (Success (fst r) = false ->
      Message (fst r) = ""%string /\ Outputs (fst r) = ∅).
Proof.
  assert (Hfail : forall msg : string,
            let r := (failure msg, @None string) in
            msg <> ""%string ->
            snd r = None
            /\ (Success (fst r) = true <-> Error (fst r) = ""%string)
            /\ (Success (fst r) = false ->
                Message (fst r) = ""%string /\ Outputs (fst r) = ∅)).
  { intros msg r Hmsg. cbn. split; [reflexivity|]. split; [|auto].
    split; [discriminate | contradiction]. }
  assert (Hok : forall (m : string) (o : gmap string any),
            let r := ({| Success := true; Message := m; Error := ""; Outputs := o |},
                      @None string) in
            snd r = None
            /\ (Success (fst r) = true <-> Error (fst r) = ""%string)
            /\ (Success (fst r) = false ->
                Message (fst r) = ""%string /\ Outputs (fst r) = ∅)).
  { intros m o r. cbn. split; [reflexivity|]. split; [tauto | discriminate]. }
  cbv zeta. unfold Execute.
  destruct (String.eqb (req_Hook req) HookPostPublish); [|apply Hok].
  unfold publish.
  destruct (validateConfig _) as [err|]; [apply Hfail; discriminate|].
  destruct (DryRun req); [apply Hok|].
  destruct (negb (nonempty _)); [apply Hfail; discriminate|].
  destruct (nonempty _); cbn [run_with].
  - destruct (exec_RunInDir _ _ _ s) as [[output [err|]] s']; cbn [run_with fst snd];
      [apply Hfail; discriminate | apply Hok].
  - destruct (exec_Run _ _ s) as [[output [err|]] s']; cbn [run_with fst snd];
      [apply Hfail; discriminate | apply Hok].
Qed.



(** ** The default manifest path *)

Module default_manifest.
Import filepath clean_facts clean_loop_facts clean_meaning clean_fixpoint.







End default_manifest.



